(** * Verification of the language manager (utils/language_manager.py)

    A shallow embedding of [LanguageManager] and the properties of its
    text lookup, fallback, normalisation, validation and scoped switch.

    Modelling conventions.
    - A Python [str] is a [string] whose characters are the code points
      0..255; [str.lower] and [str.strip] are written out for that range.
    - A Python [dict] whose iteration order is observable (category ->
      texts, key -> text) is an insertion-ordered association list
      ([odict]); [language_data], whose order no method looks at, and the
      dictionaries a method returns, compared with [==], are [gmap]s.
    - [importlib.import_module] and the iteration order of the [set] built
      by [get_supported_languages] belong to the running process: they are
      the Section variables [import_module] and [hash_order].
    - Logging has no effect on any value returned and is left out. *)

From stdpp Require Import gmap strings list fin_maps.
From Stdlib Require Import Ascii.

(** ** Python strings *)

Module PyStr.

(** [str.lower] on one code point below 256: A-Z and the Latin-1 capitals
    (all of 192..222 but the multiplication sign 215) move up by 32. *)
Definition lower_char (c : ascii) : ascii :=
  let n := N_of_ascii c in
  if ((65 <=? n) && (n <=? 90))%N then ascii_of_N (n + 32)
  else if ((192 <=? n) && (n <=? 222) && negb (n =? 215))%N
       then ascii_of_N (n + 32)
  else c.

Fixpoint lower (s : string) : string :=
  match s with
  | EmptyString => EmptyString
  | String c s' => String (lower_char c) (lower s')
  end.

(** [str.isspace] for one code point below 256. *)
Definition is_space (c : ascii) : bool :=
  let n := N_of_ascii c in
  (((9 <=? n) && (n <=? 13)) || ((28 <=? n) && (n <=? 32))
   || (n =? 133) || (n =? 160))%N.

Fixpoint lstrip (s : string) : string :=
  match s with
  | EmptyString => EmptyString
  | String c s' => if is_space c then lstrip s' else s
  end.

Fixpoint rstrip (s : string) : string :=
  match s with
  | EmptyString => EmptyString
  | String c s' =>
      match rstrip s' with
      | EmptyString => if is_space c then EmptyString else String c EmptyString
      | r => String c r
      end
  end.

Definition strip (s : string) : string := rstrip (lstrip s).

Fixpoint all_space (s : string) : bool :=
  match s with
  | EmptyString => true
  | String c s' => is_space c && all_space s'
  end.

(** [s.startswith(c)] for a one-character prefix. *)
Definition startswith_char (s : string) (c : ascii) : bool :=
  match s with
  | String c' _ => bool_decide (c' = c)
  | EmptyString => false
  end.

(** Truthiness of a [str]: only the empty string is falsy. *)
Definition truthy (s : string) : bool :=
  match s with EmptyString => false | _ => true end.

End PyStr.

(** ** Insertion-ordered dictionaries *)

Module ODict.

Definition odict (V : Type) : Type := list (string * V).

(** [d.get(k)], also the test [k in d]. *)
Fixpoint get {V} (d : odict V) (k : string) : option V :=
  match d with
  | [] => None
  | (k', v) :: d' => if decide (k' = k) then Some v else get d' k
  end.

(** [d[k] = v]: an existing key keeps its place, a new one goes last. *)
Fixpoint set {V} (d : odict V) (k : string) (v : V) : odict V :=
  match d with
  | [] => [(k, v)]
  | (k', v') :: d' =>
      if decide (k' = k) then (k, v) :: d' else (k', v') :: set d' k v
  end.

Definition keys {V} (d : odict V) : list string := d.*1.

(** [d.get(k, {})] *)
Definition get_or_empty {V} (d : odict (odict V)) (k : string) : odict V :=
  default [] (get d k).

(** A well-formed dictionary has no key twice. *)
Definition wf {V} (d : odict V) : Prop := NoDup (keys d).

End ODict.

Import ODict.

Abbreviation texts := (odict string).
Abbreviation catalog := (odict (odict string)).

(** ** The manager's state *)

Record LanguageManager : Type := mkLanguageManager {
  current_language : string;
  default_language : string;
  language_data : gmap string catalog
}.

Definition with_current (st : LanguageManager) (l : string) : LanguageManager :=
  {| current_language := l;
     default_language := default_language st;
     language_data := language_data st |}.

Definition with_data (st : LanguageManager) (l : string) (c : catalog)
  : LanguageManager :=
  {| current_language := current_language st;
     default_language := default_language st;
     language_data := <[l := c]> (language_data st) |}.

(** Class attribute [LANGUAGE_MAPPINGS], in its literal order. *)
Definition LANGUAGE_MAPPINGS : odict string :=
  [("en", "en"); ("english", "en"); ("vi", "vi");
   ("vietnamese", "vi"); ("vn", "vi")].

(** [LANGUAGE_MAPPINGS.values()] *)
Definition mapping_values : list string := LANGUAGE_MAPPINGS.*2.

(** [_normalize_language_code] *)
Definition _normalize_language_code (language : string) : string :=
  if negb (PyStr.truthy language) then "en"
  else
    let normalized := PyStr.strip (PyStr.lower language) in
    default "en" (get LANGUAGE_MAPPINGS normalized).

(** ** Loading *)

(** What an attribute of a language module can be: a dictionary of texts,
    or anything else. *)
Inductive py_value : Type :=
| PyDict (d : texts)
| PyOther.

(** The three ways [importlib.import_module] and the scan of the module
    can end inside the [try] of [_load_language_data]: the module's
    public and private attributes in [dir()] order, an [ImportError], or
    another [Exception] (a [SyntaxError] in a malformed module is one). *)
Inductive import_result : Type :=
| Imported (attrs : list (string * py_value))
| RaisesImportError
| RaisesException.

Definition module_map : odict string :=
  [("en", "english"); ("vi", "vietnamese")].

Definition module_path (language_code : string) : string :=
  "expectations.languages." +:+ default "english" (get module_map language_code).

(** The loop over [dir(language_module)]. *)
Definition extract_language_data (attrs : list (string * py_value)) : catalog :=
  foldl (fun (acc : catalog) '(attr_name, attr_value) =>
           if negb (PyStr.startswith_char attr_name "_")
           then match attr_value with
                | PyDict d => set acc (PyStr.lower attr_name) d
                | PyOther => acc
                end
           else acc)
        [] attrs.

(** The entry stored after an [ImportError]. *)
Definition default_categories : catalog :=
  [("messages", []); ("button_texts", []); ("labels", []);
   ("validation_messages", [])].

(** The placeholder [f"[Missing: {key}]"]. *)
Definition missing (key : string) : string := "[Missing: " +:+ key +:+ "]".

Section Manager.

(** The modules of this process, by dotted path. *)
Variable import_module : string -> import_result.

(** The order in which this process iterates over
    [set(LANGUAGE_MAPPINGS.values())]. *)
Variable hash_order : list string.

(** [_load_language_data] *)
Definition _load_language_data (st : LanguageManager) (language_code : string)
  : LanguageManager :=
  match import_module (module_path language_code) with
  | Imported attrs => with_data st language_code (extract_language_data attrs)
  | RaisesImportError => with_data st language_code default_categories
  | RaisesException => with_data st language_code []
  end.

(** [_load_all_languages] *)
Definition _load_all_languages (st : LanguageManager) : LanguageManager :=
  foldl (fun st lang_code =>
           match language_data st !! lang_code with
           | None => _load_language_data st lang_code
           | Some _ => st
           end)
        st mapping_values.

(** [__init__] *)
Definition init (default_language : string) : LanguageManager :=
  let cur := _normalize_language_code default_language in
  _load_all_languages
    {| current_language := cur; default_language := cur; language_data := ∅ |}.

(** [set_language] *)
Definition set_language (st : LanguageManager) (language : string)
  : LanguageManager :=
  let normalized_lang := _normalize_language_code language in
  let st' := match language_data st !! normalized_lang with
             | None => _load_language_data st normalized_lang
             | Some _ => st
             end in
  with_current st' normalized_lang.

(** [get_current_language] *)
Definition get_current_language (st : LanguageManager) : string :=
  current_language st.

(** [get_supported_languages]: [list(set(...))] lists the distinct
    values in the iteration order of the set. *)
Definition get_supported_languages : list string := hash_order.

(** [self.language_data.get(lang, {}).get(category, {})] *)
Definition category_data (st : LanguageManager) (lang category : string) : texts :=
  get_or_empty (default [] (language_data st !! lang)) category.

(** The fallback loop of [get_text_by_category]: the first language of
    the scan, other than the current one, that has the key, with its text. *)
Fixpoint fallback_scan (st : LanguageManager) (category key : string)
    (langs : list string) : option (string * string) :=
  match langs with
  | [] => None
  | lang_code :: rest =>
      if decide (lang_code ≠ current_language st) then
        match get (category_data st lang_code (PyStr.lower category)) key with
        | Some v => Some (lang_code, v)
        | None => fallback_scan st category key rest
        end
      else fallback_scan st category key rest
  end.

(** [get_text_by_category] *)
Definition get_text_by_category (st : LanguageManager)
    (category key : string) (fallback : bool) : string :=
  match get (category_data st (current_language st) (PyStr.lower category)) key with
  | Some v => v
  | None =>
      if negb fallback then missing key
      else match fallback_scan st category key get_supported_languages with
           | Some (_, v) => v
           | None => missing key
           end
  end.

(** [bulk_get_texts]: every call uses the default [fallback=True]. *)
Definition bulk_get_texts (st : LanguageManager) (keys : list string)
    (category : string) : gmap string string :=
  foldl (fun (result : gmap string string) key =>
           <[key := get_text_by_category st category key true]> result)
        ∅ keys.

(** The inner loop of [find_key_by_text] over [category_data.items()]. *)
Fixpoint find_in_texts (d : texts) (text : string) : option string :=
  match d with
  | [] => None
  | (key, value) :: d' =>
      if decide (PyStr.lower value = PyStr.lower text) then Some key
      else find_in_texts d' text
  end.

(** The outer loop of [find_key_by_text] over [categories_to_search]. *)
Fixpoint find_in_categories (current_data : catalog) (cats : list string)
    (text : string) : option string :=
  match cats with
  | [] => None
  | cat :: rest =>
      match find_in_texts (get_or_empty current_data cat) text with
      | Some key => Some key
      | None => find_in_categories current_data rest text
      end
  end.

(** [categories_to_search]: [None] and the empty string are both falsy. *)
Definition categories_to_search (current_data : catalog)
    (category : option string) : list string :=
  match category with
  | Some c => if PyStr.truthy c then [c] else keys current_data
  | None => keys current_data
  end.

(** [find_key_by_text] *)
Definition find_key_by_text (st : LanguageManager) (text : string)
    (category : option string) : option string :=
  let current_data := default [] (language_data st !! current_language st) in
  find_in_categories current_data (categories_to_search current_data category) text.

(** [[key for key in ref_texts.keys() if key not in lang_texts]] *)
Definition missing_list (ref_texts lang_texts : texts) : list string :=
  filter (fun key => get lang_texts key = None) (keys ref_texts).

(** The loop of [validate_language_completeness] over
    [reference_data.items()], building [missing_keys]. *)
Definition missing_keys_of (reference_data lang_data : catalog)
  : gmap string (list string) :=
  foldl (fun (acc : gmap string (list string)) '(category, ref_texts) =>
           match missing_list ref_texts (get_or_empty lang_data category) with
           | [] => acc
           | m => <[category := m]> acc
           end)
        ∅ reference_data.

(** [validate_language_completeness] *)
Definition validate_language_completeness (st : LanguageManager)
    (reference_language : string) : gmap string (gmap string (list string)) :=
  let reference_lang := _normalize_language_code reference_language in
  let reference_data := default [] (language_data st !! reference_lang) in
  foldl (fun (validation_result : gmap string (gmap string (list string)))
             lang_code =>
           if decide (lang_code = reference_lang) then validation_result
           else <[lang_code :=
                    missing_keys_of reference_data
                      (default [] (language_data st !! lang_code))]>
                  validation_result)
        ∅ get_supported_languages.

(** How a block of work run under [with] ends: it returns, or it raises;
    either way it leaves a state behind. *)
Inductive outcome : Type :=
| Returned (st : LanguageManager)
| Raised (exn : string) (st : LanguageManager).

Definition final_state (o : outcome) : LanguageManager :=
  match o with Returned st | Raised _ st => st end.

Definition raised (o : outcome) : option string :=
  match o with Returned _ => None | Raised e _ => Some e end.

(** [switch_language_temporarily], with the body of the [with] statement
    as [block]: the [finally] clause runs on both ways out, and an
    exception of the block goes on to the caller. *)
Definition switch_language_temporarily (st : LanguageManager)
    (language : string) (block : LanguageManager -> outcome) : outcome :=
  let original_language := current_language st in
  match block (set_language st language) with
  | Returned st' => Returned (with_current st' original_language)
  | Raised e st' => Raised e (with_current st' original_language)
  end.

(** [get_texts_for_language] *)
Definition get_texts_for_language (st : LanguageManager) (language : string)
  : catalog :=
  default [] (language_data st !! _normalize_language_code language).

(** The union over [lang_data.values()] in [get_available_keys]. *)
Definition all_keys (lang_data : catalog) : gset string :=
  foldl (fun (acc : gset string) (cat_data : texts) =>
           acc ∪ list_to_set (keys cat_data))
        ∅ lang_data.*2.

(** [get_available_keys] *)
Definition get_available_keys (st : LanguageManager)
    (category language : option string) : gset string :=
  let target_lang :=
    match language with
    | Some l => if PyStr.truthy l then _normalize_language_code l
                else current_language st
    | None => current_language st
    end in
  let lang_data := default [] (language_data st !! target_lang) in
  match category with
  | Some c => if PyStr.truthy c
              then list_to_set (keys (get_or_empty lang_data c))
              else all_keys lang_data
  | None => all_keys lang_data
  end.

End Manager.

(** An iteration order of [set(LANGUAGE_MAPPINGS.values())]: each distinct
    value once, in some order. *)
Definition set_iteration_order (order : list string) : Prop :=
  order ≡ₚ remove_dups mapping_values.

(** The state invariants the methods keep. *)
Definition normalized_state (st : LanguageManager) : Prop :=
  current_language st ∈ remove_dups mapping_values.

(** No language's dictionary of categories holds a name twice. *)
Definition wf_categories (st : LanguageManager) : Prop :=
  ∀ lang (c : catalog), language_data st !! lang = Some c → wf c.

(** Category names are stored in lower case. *)
Definition lowercase_categories (st : LanguageManager) : Prop :=
  ∀ lang (c : catalog) cat,
    language_data st !! lang = Some c → cat ∈ keys c → PyStr.lower cat = cat.


(** ** A small installation, used to run the definitions *)

Module Sample.

(** [expectations/languages/english.py], as [dir()] lists it. *)
Definition english : list (string * py_value) :=
  [("BUTTON_TEXTS", PyDict [("login", "Login"); ("submit", "Submit")]);
   ("MESSAGES", PyDict [("welcome", "Welcome"); ("goodbye", "Goodbye");
                        ("greeting", "WELCOME")]);
   ("VERSION", PyOther);
   ("__name__", PyOther)].

(** [expectations/languages/vietnamese.py]: no "welcome" message, and a
    message the English module lacks. *)
Definition vietnamese : list (string * py_value) :=
  [("BUTTON_TEXTS", PyDict [("login", "Dang nhap"); ("submit", "Gui")]);
   ("MESSAGES", PyDict [("goodbye", "Tam biet"); ("greeting", "Xin chao");
                        ("thanks", "Cam on")]);
   ("__name__", PyOther)].

Definition modules (path : string) : import_result :=
  if decide (path = "expectations.languages.english") then Imported english
  else if decide (path = "expectations.languages.vietnamese")
       then Imported vietnamese
  else RaisesImportError.

(** Both modules hold the same keys. *)
Definition complete_modules (path : string) : import_result :=
  if decide (path = "expectations.languages.english") then Imported english
  else if decide (path = "expectations.languages.vietnamese")
       then Imported english
  else RaisesImportError.

(** The Vietnamese module does not parse. *)
Definition broken_modules (path : string) : import_result :=
  if decide (path = "expectations.languages.english") then Imported english
  else if decide (path = "expectations.languages.vietnamese")
       then RaisesException
  else RaisesImportError.

Definition en_first : list string := ["en"; "vi"].
Definition vi_first : list string := ["vi"; "en"].

Definition st_en : LanguageManager := init modules "en".
Definition st_vi : LanguageManager := init modules "Vietnamese".

End Sample.

(** ** The remaining methods of the manager *)

(** [get_message], [get_button_text], [get_label_text],
    [get_validation_message]: the lookup with the category fixed. *)
Definition get_message (hash_order : list string) (st : LanguageManager)
    (key : string) (fallback : bool) : string :=
  get_text_by_category hash_order st "messages" key fallback.

Definition get_button_text (hash_order : list string) (st : LanguageManager)
    (key : string) (fallback : bool) : string :=
  get_text_by_category hash_order st "button_texts" key fallback.

Definition get_label_text (hash_order : list string) (st : LanguageManager)
    (key : string) (fallback : bool) : string :=
  get_text_by_category hash_order st "labels" key fallback.

Definition get_validation_message (hash_order : list string)
    (st : LanguageManager) (key : string) (fallback : bool) : string :=
  get_text_by_category hash_order st "validation_messages" key fallback.

(** The two dictionaries [export_language_data] can return. *)
Inductive exported : Type :=
| ExportLanguage (language : string) (data : catalog)
| ExportAll (current : string) (supported_languages : list string)
            (all_data : gmap string catalog).

(** [export_language_data] *)
Definition export_language_data (hash_order : list string)
    (st : LanguageManager) (language : option string) : exported :=
  let everything :=
    ExportAll (current_language st) (get_supported_languages hash_order)
              (language_data st) in
  match language with
  | Some l =>
      if PyStr.truthy l
      then let normalized_lang := _normalize_language_code l in
           ExportLanguage normalized_lang
             (default [] (language_data st !! normalized_lang))
      else everything
  | None => everything
  end.

(** The entry [_load_language_data] stores for a language: what its three
    branches assign to [self.language_data[language_code]]. *)
Definition stored_entry (import_module : string → import_result)
    (language_code : string) : catalog :=
  match import_module (module_path language_code) with
  | Imported attrs => extract_language_data attrs
  | RaisesImportError => default_categories
  | RaisesException => []
  end.

(** Every supported code has an entry in [language_data]. *)
Definition all_loaded (st : LanguageManager) : Prop :=
  ∀ l, l ∈ remove_dups mapping_values → is_Some (language_data st !! l).

(** ** More string methods *)

Module PyText.

(** [s.startswith(p)] *)
Fixpoint startswith (s p : string) {struct p} : bool :=
  match p, s with
  | EmptyString, _ => true
  | String a p', String b s' => bool_decide (a = b) && startswith s' p'
  | String _ _, EmptyString => false
  end.

(** The scan of [s.replace(pat, rep)] for a pattern that is not empty:
    [skip] characters of a match just replaced are still to be passed
    over; otherwise a match at the head is replaced and the scan goes on
    behind it, and any other character is copied. *)
Fixpoint replace_go (pat rep : string) (skip : nat) (s : string) : string :=
  match s with
  | EmptyString => EmptyString
  | String c s' =>
      match skip with
      | S n => replace_go pat rep n s'
      | O =>
          if startswith s pat
          then rep +:+ replace_go pat rep (String.length pat - 1) s'
          else String c (replace_go pat rep 0 s')
      end
  end.

Definition replace (s pat rep : string) : string := replace_go pat rep 0 s.

(** [c in s] for a character. *)
Fixpoint contains_char (s : string) (c : ascii) : bool :=
  match s with
  | EmptyString => false
  | String c' s' => bool_decide (c' = c) || contains_char s' c
  end.

End PyText.

(** ** The hooks and helpers of features/environment.py that drive the manager

    Of the behave context these definitions keep the language manager and
    the language of the run configuration; the browsers, the locator
    loader and the tracking file are other components. *)

Module Environment.

(** [language_code_mapping] of [before_all] and [after_scenario]. *)
Definition language_code_mapping : odict string :=
  [("english", "en"); ("vietnamese", "vi"); ("en", "en"); ("vi", "vi")].

(** [language_code_mapping.get(language.lower(), 'en')] *)
Definition language_code (language : string) : string :=
  default "en" (get language_code_mapping (PyStr.lower language)).

(** [context.config.userdata.get('language', 'english')] *)
Definition configured_language (userdata : option string) : string :=
  default "english" userdata.

(** The manager [before_all] builds. *)
Definition before_all_manager (import_module : string → import_result)
    (userdata : option string) : LanguageManager :=
  init import_module (language_code (configured_language userdata)).

(** The loop of [before_scenario] that picks the scenario's language: the
    first tag that starts with "language.", with every "language." taken
    out of it; the [break] ends the loop there. *)
Fixpoint scenario_language (tags : list string) : option string :=
  match tags with
  | [] => None
  | tag :: rest =>
      if PyText.startswith tag "language."
      then Some (PyText.replace tag "language." "")
      else scenario_language rest
  end.

(** What [before_scenario] does to the manager. *)
Definition before_scenario_manager (import_module : string → import_result)
    (st : LanguageManager) (tags : list string) : LanguageManager :=
  match scenario_language tags with
  | Some l => set_language import_module st l
  | None => st
  end.

(** What [after_scenario] does to the manager. *)
Definition after_scenario_manager (import_module : string → import_result)
    (userdata : option string) (st : LanguageManager) : LanguageManager :=
  set_language import_module st (language_code (configured_language userdata)).

(** [locator_language_mapping] of [switch_language_for_test]. *)
Definition locator_language_mapping : odict string :=
  [("en", "english"); ("english", "english"); ("vi", "vietnamese");
   ("vietnamese", "vietnamese")].

(** The language [switch_language_for_test] hands to the locator loader. *)
Definition locator_language (language_code : string) : string :=
  default "english" (get locator_language_mapping (PyStr.lower language_code)).

(** The loop of [after_all] over the validation result:
    [any(missing_keys for missing_keys in categories.values() if missing_keys)]
    for some language. *)
Definition has_missing_translations
    (validation_result : gmap string (gmap string (list string))) : bool :=
  existsb (fun '(_, categories) =>
             existsb (fun '(_, missing_keys) =>
                        match missing_keys : list string with
                        | [] => false
                        | _ :: _ => true
                        end)
                     (map_to_list (categories : gmap string (list string))))
          (map_to_list validation_result).

End Environment.

(** ** Pure parts of features/steps/navigation_steps.py *)

Module Navigation.

Definition page_url_map : odict string :=
  [("login", "/login"); ("dashboard", "/dashboard"); ("profile", "/profile");
   ("settings", "/settings"); ("about", "/about"); ("contact", "/contact");
   ("help", "/help"); ("transfer", "/transfer");
   ("transactions", "/transactions")].

(** [page_url_map.get(page_name.lower(), f'/{page_name.lower()}')] of
    [step_navigate_to_page]. *)
Definition endpoint (page_name : string) : string :=
  default ("/" +:+ PyStr.lower page_name)
          (get page_url_map (PyStr.lower page_name)).

(** [breadcrumb_path.replace(' > ', ' ').replace('>', ' ')] of
    [step_verify_breadcrumb]. *)
Definition normalized_expected (breadcrumb_path : string) : string :=
  PyText.replace (PyText.replace breadcrumb_path " > " " ") ">" " ".

End Navigation.

(** * Properties *)

(** ** Strings *)

Lemma lower_char_idem (c : ascii) :
  PyStr.lower_char (PyStr.lower_char c) = PyStr.lower_char c.
Proof. destruct c as [[] [] [] [] [] [] [] []]; reflexivity. Qed.

Lemma lower_idem (s : string) : PyStr.lower (PyStr.lower s) = PyStr.lower s.
Proof.
  induction s as [|c s IH]; simpl; [reflexivity|].
  by rewrite lower_char_idem, IH.
Qed.

Lemma is_space_lower_char (c : ascii) :
  PyStr.is_space (PyStr.lower_char c) = PyStr.is_space c.
Proof. destruct c as [[] [] [] [] [] [] [] []]; reflexivity. Qed.

Lemma lower_app (s t : string) :
  PyStr.lower (s +:+ t) = PyStr.lower s +:+ PyStr.lower t.
Proof. induction s as [|c s IH]; simpl; [reflexivity|]. by rewrite IH. Qed.

Lemma all_space_lower (s : string) :
  PyStr.all_space (PyStr.lower s) = PyStr.all_space s.
Proof.
  induction s as [|c s IH]; simpl; [reflexivity|].
  by rewrite is_space_lower_char, IH.
Qed.

Lemma lstrip_app_space (pre s : string) :
  PyStr.all_space pre = true → PyStr.lstrip (pre +:+ s) = PyStr.lstrip s.
Proof.
  induction pre as [|c pre IH]; simpl; [done|].
  intros [Hc Hpre]%andb_prop. rewrite Hc. auto.
Qed.

Lemma rstrip_all_space (s : string) :
  PyStr.all_space s = true → PyStr.rstrip s = "".
Proof.
  induction s as [|c s IH]; simpl; [done|].
  intros [Hc Hs]%andb_prop. by rewrite IH, Hc.
Qed.

Lemma rstrip_app_space (s post : string) :
  PyStr.all_space post = true → PyStr.rstrip (s +:+ post) = PyStr.rstrip s.
Proof.
  intros Hpost. induction s as [|c s IH]; simpl.
  - by apply rstrip_all_space.
  - by rewrite IH.
Qed.

(** The alias table has five names, none with a blank at either end. *)
Lemma mapping_alias_cases (alias code : string) :
  get LANGUAGE_MAPPINGS alias = Some code →
  (alias = "en" ∧ code = "en") ∨ (alias = "english" ∧ code = "en")
  ∨ (alias = "vi" ∧ code = "vi") ∨ (alias = "vietnamese" ∧ code = "vi")
  ∨ (alias = "vn" ∧ code = "vi").
Proof.
  unfold LANGUAGE_MAPPINGS; simpl.
  repeat (case_decide; [intros [= <-]; subst; tauto|]). done.
Qed.

Lemma mapping_alias_strip (alias code : string) :
  get LANGUAGE_MAPPINGS alias = Some code →
  PyStr.rstrip alias = alias ∧ ∀ t, PyStr.lstrip (alias +:+ t) = alias +:+ t.
Proof.
  intros H.
  destruct (mapping_alias_cases _ _ H)
    as [[-> _]|[[-> _]|[[-> _]|[[-> _]|[-> _]]]]]; split; reflexivity.
Qed.

Lemma normalize_in_supported (language : string) :
  _normalize_language_code language = "en" ∨ _normalize_language_code language = "vi".
Proof.
  unfold _normalize_language_code.
  destruct (negb (PyStr.truthy language)); [by left|].
  destruct (get LANGUAGE_MAPPINGS _) as [code|] eqn:H; simpl; [|by left].
  destruct (mapping_alias_cases _ _ H) as [[_ ->]|[[_ ->]|[[_ ->]|[[_ ->]|[_ ->]]]]];
    auto.
Qed.

(** ** The fallback scan *)

Lemma fallback_scan_none (st : LanguageManager) (category key : string)
    (langs : list string) :
  fallback_scan st category key langs = None ↔
  ∀ l, l ∈ langs → l ≠ current_language st →
       get (category_data st l (PyStr.lower category)) key = None.
Proof.
  induction langs as [|l0 langs IH]; simpl.
  - split; [intros _ l Hl; by apply elem_of_nil in Hl|done].
  - case_decide as Hne.
    + destruct (get _ key) as [v|] eqn:Hv.
      * split; [done|]. intros H. specialize (H l0 (list_elem_of_here _ _) Hne).
        congruence.
      * rewrite IH. split.
        -- intros H l [->|Hl]%elem_of_cons ?; auto.
        -- intros H l Hl ?. apply H; [by apply list_elem_of_further|done].
    + rewrite IH. split.
      * intros H l [->|Hl]%elem_of_cons ?; [done|auto].
      * intros H l Hl ?. apply H; [by apply list_elem_of_further|done].
Qed.

Lemma fallback_scan_first (st : LanguageManager) (category key : string)
    (pre post : list string) (lang text : string) :
  lang ≠ current_language st →
  get (category_data st lang (PyStr.lower category)) key = Some text →
  (∀ l, l ∈ pre → l ≠ current_language st →
        get (category_data st l (PyStr.lower category)) key = None) →
  fallback_scan st category key (pre ++ lang :: post) = Some (lang, text).
Proof.
  intros Hne Hget. induction pre as [|l0 pre IH]; intros Hpre; simpl.
  - rewrite decide_True by done. by rewrite Hget.
  - assert (fallback_scan st category key (pre ++ lang :: post) = Some (lang, text))
      as Hrest.
    { apply IH. intros l Hl. apply Hpre. by apply list_elem_of_further. }
    case_decide as Hl0; [|done].
    by rewrite (Hpre l0 (list_elem_of_here _ _) Hl0).
Qed.

Lemma elem_of_supported (x : string) :
  x ∈ remove_dups mapping_values ↔ x = "en" ∨ x = "vi".
Proof.
  replace (remove_dups mapping_values) with ["en"; "vi"] by reflexivity.
  rewrite !elem_of_cons, elem_of_nil. tauto.
Qed.

(** The two orders in which a set of the two codes can be listed. *)
Lemma set_iteration_order_cases (order : list string) :
  set_iteration_order order ↔ order = ["en"; "vi"] ∨ order = ["vi"; "en"].
Proof.
  unfold set_iteration_order.
  replace (remove_dups mapping_values) with ["en"; "vi"] by reflexivity.
  split.
  - intros H. pose proof (Permutation_length H) as Hlen.
    destruct order as [|a [|b [|? ?]]]; simplify_eq/=.
    assert (a ∈ ["en"; "vi"]) as Ha by (rewrite <- H; apply list_elem_of_here).
    assert (b ∈ ["en"; "vi"]) as Hb
      by (rewrite <- H; apply list_elem_of_further, list_elem_of_here).
    assert (a ≠ b) as Hab.
    { intros ->. assert (NoDup [b; b]) as Hnd.
      { rewrite H. by apply (bool_decide_unpack _). }
      apply NoDup_cons in Hnd as [Hnotin _]. apply Hnotin, list_elem_of_here. }
    rewrite !elem_of_cons, elem_of_nil in Ha, Hb.
    destruct Ha as [->|[->|[]]], Hb as [->|[->|[]]]; auto; done.
  - intros [-> | ->]; [done|]. apply perm_swap.
Qed.

(** C1: when the key is absent from the current language's data for the
    lowercased category, [get_text_by_category] with [fallback=False]
    returns exactly the string "[Missing: " + key + "]"; the function is
    total, so nothing is raised. *)
Theorem get_text_by_category_no_fallback_missing
    (hash_order : list string) (st : LanguageManager) (category key : string) :
  get (category_data st (current_language st) (PyStr.lower category)) key = None →
  get_text_by_category hash_order st category key false
  = "[Missing: " +:+ key +:+ "]".
Proof. intros H. unfold get_text_by_category. by rewrite H. Qed.

Lemma get_text_by_category_no_fallback_missing_witness :
  get (category_data Sample.st_en (current_language Sample.st_en)
         (PyStr.lower "Messages")) "thanks" = None
  ∧ get_text_by_category Sample.vi_first Sample.st_en "Messages" "thanks" false
    = "[Missing: thanks]".
Proof.
  split; [reflexivity|].
  apply (get_text_by_category_no_fallback_missing
           Sample.vi_first Sample.st_en "Messages" "thanks").
  reflexivity.
Defined.

(** C2: when the key is absent from the current language, the call with
    fallback returns the text of the first other language of the scan that
    has the key; with the two supported codes and a normalized current
    language that is the text of whichever other supported language has
    it; the placeholder comes back exactly when the scan finds the key in
    no other language. *)
Theorem get_text_by_category_fallback
    (hash_order : list string) (st : LanguageManager) (category key : string) :
  get (category_data st (current_language st) (PyStr.lower category)) key = None →
  (∀ pre lang post text,
     hash_order = pre ++ lang :: post →
     lang ≠ current_language st →
     get (category_data st lang (PyStr.lower category)) key = Some text →
     (∀ l, l ∈ pre → l ≠ current_language st →
           get (category_data st l (PyStr.lower category)) key = None) →
     fallback_scan st category key (get_supported_languages hash_order)
     = Some (lang, text)
     ∧ get_text_by_category hash_order st category key true = text)
  ∧ (set_iteration_order hash_order → normalized_state st →
     ∀ lang text,
       lang ∈ hash_order → lang ≠ current_language st →
       get (category_data st lang (PyStr.lower category)) key = Some text →
       get_text_by_category hash_order st category key true = text)
  ∧ ((∀ l, l ∈ hash_order → l ≠ current_language st →
            get (category_data st l (PyStr.lower category)) key = None) ↔
     fallback_scan st category key hash_order = None)
  ∧ (fallback_scan st category key hash_order = None →
     get_text_by_category hash_order st category key true = missing key).
Proof.
  intros Hcur. unfold get_supported_languages.
  assert (∀ r, fallback_scan st category key hash_order = r →
               get_text_by_category hash_order st category key true
               = match r with Some (_, v) => v | None => missing key end) as Hres.
  { intros r <-. unfold get_text_by_category, get_supported_languages.
    by rewrite Hcur. }
  split; [|split; [|split]].
  - intros pre lang post text -> Hne Hget Hpre.
    pose proof (fallback_scan_first st category key pre post lang text
                  Hne Hget Hpre) as Hscan.
    split; [done|]. by rewrite (Hres _ Hscan).
  - intros Hord Hnorm lang text Hin Hne Hget.
    apply set_iteration_order_cases in Hord.
    apply elem_of_supported in Hnorm.
    assert (fallback_scan st category key hash_order = Some (lang, text)) as Hscan.
    { destruct Hord as [-> | ->];
        rewrite !elem_of_cons, elem_of_nil in Hin;
        destruct Hin as [->|[->|[]]]; destruct Hnorm as [Hc|Hc];
        try congruence; simpl; rewrite <- Hc in *;
        repeat case_decide; try congruence; try done;
        rewrite ?Hget, ?Hcur; try done; congruence. }
    by rewrite (Hres _ Hscan).
  - symmetry. apply fallback_scan_none.
  - intros Hscan. by rewrite (Hres _ Hscan).
Qed.

Lemma get_text_by_category_fallback_witness :
  get (category_data Sample.st_en (current_language Sample.st_en)
         (PyStr.lower "Messages")) "thanks" = None
  ∧ get_text_by_category Sample.vi_first Sample.st_en "Messages" "thanks" true
    = "Cam on".
Proof.
  split; [vm_compute; reflexivity|].
  destruct (get_text_by_category_fallback
              Sample.vi_first Sample.st_en "Messages" "thanks")
    as (_ & Hother & _).
  - vm_compute; reflexivity.
  - apply (Hother (perm_swap _ _ _)) with (lang := "vi").
    + apply (bool_decide_unpack _). vm_compute; reflexivity.
    + apply list_elem_of_here.
    + vm_compute. discriminate.
    + vm_compute; reflexivity.
Defined.

(** ** Normalisation *)

Lemma normalize_alias (alias code pre body post : string) :
  get LANGUAGE_MAPPINGS alias = Some code →
  PyStr.all_space pre = true → PyStr.all_space post = true →
  PyStr.lower body = alias →
  _normalize_language_code (pre +:+ body +:+ post) = code.
Proof.
  intros Hmap Hpre Hpost Hbody. unfold _normalize_language_code.
  assert (PyStr.strip (PyStr.lower (pre +:+ body +:+ post)) = alias) as Hstrip.
  { rewrite !lower_app, Hbody. unfold PyStr.strip.
    rewrite lstrip_app_space by (by rewrite all_space_lower).
    destruct (mapping_alias_strip _ _ Hmap) as [Hr Hl].
    rewrite Hl, rstrip_app_space by (by rewrite all_space_lower). exact Hr. }
  destruct (pre +:+ body +:+ post) as [|c s] eqn:Hs.
  - vm_compute in Hstrip. rewrite <- Hstrip in Hmap. discriminate Hmap.
  - simpl negb. cbv iota. rewrite Hstrip, Hmap. reflexivity.
Qed.

Lemma set_language_current (import_module : string → import_result)
    (st : LanguageManager) (language : string) :
  current_language (set_language import_module st language)
  = _normalize_language_code language.
Proof. reflexivity. Qed.

Lemma load_language_data_fields (import_module : string → import_result)
    (st : LanguageManager) (language_code : string) :
  current_language (_load_language_data import_module st language_code)
  = current_language st
  ∧ default_language (_load_language_data import_module st language_code)
    = default_language st.
Proof.
  unfold _load_language_data. by destruct (import_module _).
Qed.

Lemma load_all_languages_fields (import_module : string → import_result)
    (st : LanguageManager) :
  current_language (_load_all_languages import_module st) = current_language st
  ∧ default_language (_load_all_languages import_module st) = default_language st.
Proof.
  unfold _load_all_languages. generalize mapping_values. intros langs.
  revert st. induction langs as [|l langs IH]; intros st; cbn [foldl]; [done|].
  destruct (IH (match language_data st !! l with
                | Some _ => st
                | None => _load_language_data import_module st l
                end)) as [-> ->].
  destruct (language_data st !! l); [done|].
  apply load_language_data_fields.
Qed.

Lemma set_language_default (import_module : string → import_result)
    (st : LanguageManager) (language : string) :
  default_language (set_language import_module st language) = default_language st.
Proof.
  unfold set_language. cbn [with_current default_language].
  destruct (language_data st !! _); [done|].
  apply load_language_data_fields.
Qed.

(** The current language of every state the methods build is a supported
    code. *)
Lemma init_normalized (import_module : string → import_result)
    (default_language : string) :
  normalized_state (init import_module default_language)
  ∧ current_language (init import_module default_language)
    = _normalize_language_code default_language.
Proof.
  unfold normalized_state, init.
  destruct (load_all_languages_fields import_module
              {| current_language := _normalize_language_code default_language;
                 default_language := _normalize_language_code default_language;
                 language_data := ∅ |}) as [-> _].
  cbn [current_language]. split; [|done].
  apply elem_of_supported, normalize_in_supported.
Qed.

Lemma set_language_normalized (import_module : string → import_result)
    (st : LanguageManager) (language : string) :
  normalized_state (set_language import_module st language).
Proof.
  unfold normalized_state. rewrite set_language_current.
  apply elem_of_supported, normalize_in_supported.
Qed.

Lemma init_default (import_module : string → import_result)
    (default_language0 : string) :
  default_language (init import_module default_language0)
  = _normalize_language_code default_language0.
Proof.
  unfold init.
  by destruct (load_all_languages_fields import_module
                 {| current_language := _normalize_language_code default_language0;
                    default_language := _normalize_language_code default_language0;
                    language_data := ∅ |}) as [_ ->].
Qed.

(** C3: normalisation is a total function into the supported codes "en"
    and "vi": a name of the alias table, in any mix of cases and with
    blanks around it, gives the code the table holds for it; an empty or
    unrecognized input gives the default "en"; the constructor and
    [set_language] store the normalized code, so [set_language("bogus")]
    leaves the current language at "en". *)
Theorem normalize_language_code_total
    (import_module : string → import_result) (st : LanguageManager)
    (language : string) :
  _normalize_language_code language ∈ remove_dups mapping_values
  ∧ (∀ alias code pre body post,
       get LANGUAGE_MAPPINGS alias = Some code →
       PyStr.all_space pre = true → PyStr.all_space post = true →
       PyStr.lower body = alias →
       language = pre +:+ body +:+ post →
       _normalize_language_code language = code
       ∧ code ∈ remove_dups mapping_values)
  ∧ (get LANGUAGE_MAPPINGS (PyStr.strip (PyStr.lower language)) = None →
     _normalize_language_code language = "en")
  ∧ _normalize_language_code "" = "en"
  ∧ current_language (init import_module language)
    = _normalize_language_code language
  ∧ current_language (set_language import_module st language)
    = _normalize_language_code language
  ∧ current_language (set_language import_module st "bogus") = "en".
Proof.
  assert (∀ l, _normalize_language_code l ∈ remove_dups mapping_values) as Hin.
  { intros l. apply elem_of_supported, normalize_in_supported. }
  repeat split.
  - apply Hin.
  - subst language. by eapply normalize_alias.
  - subst language.
    erewrite <- (normalize_alias alias code pre body post) by eassumption.
    apply Hin.
  - intros Hnone. unfold _normalize_language_code.
    destruct (negb (PyStr.truthy language)); [done|]. by rewrite Hnone.
  - apply init_normalized.
Qed.

(** The default of the normalisation is the constant "en", not the
    language the manager was built with. *)
Remark set_language_unknown_ignores_default :
  let st := set_language Sample.modules (init Sample.modules "vi") "bogus" in
  default_language st = "vi" ∧ current_language st = "en".
Proof. vm_compute. split; reflexivity. Qed.

Lemma normalize_language_code_total_witness :
  _normalize_language_code "  ViETnamese " = "vi"
  ∧ _normalize_language_code "klingon" = "en"
  ∧ current_language
      (set_language Sample.modules
         (set_language Sample.modules Sample.st_en "vi") "bogus") = "en".
Proof.
  split; [|split].
  - destruct (normalize_language_code_total Sample.modules Sample.st_en
                "  ViETnamese ") as (_ & Halias & _).
    apply (Halias "vietnamese" "vi" "  " "ViETnamese" " "); reflexivity.
  - destruct (normalize_language_code_total Sample.modules Sample.st_en
                "klingon") as (_ & _ & Hunknown & _).
    apply Hunknown. reflexivity.
  - destruct (normalize_language_code_total Sample.modules
                (set_language Sample.modules Sample.st_en "vi") "bogus")
      as (_ & _ & _ & _ & _ & _ & Hbogus).
    exact Hbogus.
Defined.

(** ** Dictionaries *)

Lemma get_None {V} (d : odict V) (k : string) : get d k = None ↔ k ∉ keys d.
Proof.
  unfold keys. induction d as [|[k' v] d IH]; simpl.
  - split; [intros _; apply not_elem_of_nil|done].
  - rewrite not_elem_of_cons. case_decide as Hk; [subst|].
    + split; [done|]. intros [? _]; done.
    + rewrite IH. split; [intros ?; split; [congruence|done]|tauto].
Qed.

Lemma get_Some_elem {V} (d : odict V) (k : string) (v : V) :
  get d k = Some v → (k, v) ∈ d.
Proof.
  induction d as [|[k' v'] d IH]; simpl; [done|].
  case_decide as Hk; [intros [= ->]; subst; apply list_elem_of_here|].
  intros H. by apply list_elem_of_further, IH.
Qed.

Lemma keys_set {V} (d : odict V) (k : string) (v : V) :
  ∀ x, x ∈ keys (set d k v) ↔ x = k ∨ x ∈ keys d.
Proof.
  unfold keys. induction d as [|[k' v'] d IH]; intros x; simpl.
  - rewrite elem_of_cons. rewrite !elem_of_nil. tauto.
  - case_decide as Hk; simpl; rewrite !elem_of_cons.
    + subst. tauto.
    + rewrite IH. tauto.
Qed.

Lemma wf_set {V} (d : odict V) (k : string) (v : V) : wf d → wf (set d k v).
Proof.
  unfold wf. induction d as [|[k' v'] d IH]; simpl.
  - intros _. apply NoDup_singleton.
  - unfold keys in *. simpl. rewrite NoDup_cons. intros [Hnotin Hnd].
    case_decide as Hk; simpl; rewrite NoDup_cons.
    + by subst.
    + split; [|by apply IH].
      intros [->|Hin]%(keys_set d k v k'); done.
Qed.

(** ** Completeness validation *)

Lemma missing_keys_of_lookup_acc (lang_data reference_data : catalog)
    (acc : gmap string (list string)) (cat : string) :
  wf reference_data →
  foldl (fun (acc : gmap string (list string)) '(category, ref_texts) =>
           match missing_list ref_texts (get_or_empty lang_data category) with
           | [] => acc
           | m => <[category := m]> acc
           end) acc reference_data !! cat
  = match get reference_data cat with
    | Some ref_texts =>
        match missing_list ref_texts (get_or_empty lang_data cat) with
        | [] => acc !! cat
        | m => Some m
        end
    | None => acc !! cat
    end.
Proof.
  unfold wf, keys. revert acc.
  induction reference_data as [|[c0 t0] rd IH]; intros acc Hnd; simpl; [done|].
  apply NoDup_cons in Hnd as [Hnotin Hnd]. simpl in Hnotin. rewrite (IH _ Hnd).
  case_decide as Hc.
  - subst c0. apply get_None in Hnotin. rewrite Hnotin.
    destruct (missing_list t0 _); [done|]. apply lookup_insert_eq.
  - assert (∀ m, (<[c0 := m]> acc) !! cat = acc !! cat) as Hins
      by (intros m; by apply lookup_insert_ne).
    destruct (missing_list t0 (get_or_empty lang_data c0)) as [|k0 m0];
      [done|].
    rewrite Hins. done.
Qed.

Lemma missing_keys_of_lookup (reference_data lang_data : catalog) (cat : string) :
  wf reference_data →
  missing_keys_of reference_data lang_data !! cat
  = match get reference_data cat with
    | Some ref_texts =>
        match missing_list ref_texts (get_or_empty lang_data cat) with
        | [] => None
        | m => Some m
        end
    | None => None
    end.
Proof.
  intros Hwf. unfold missing_keys_of.
  rewrite (missing_keys_of_lookup_acc _ _ _ _ Hwf), lookup_empty.
  destruct (get reference_data cat); [|done]. by destruct (missing_list _ _).
Qed.

Lemma validation_result_lookup_acc {A} (f : string → A) (ref : string)
    (langs : list string) (acc : gmap string A) (lang : string) :
  foldl (fun (r : gmap string A) lang_code =>
           if decide (lang_code = ref) then r else <[lang_code := f lang_code]> r)
        acc langs !! lang
  = if decide (lang ∈ langs ∧ lang ≠ ref) then Some (f lang) else acc !! lang.
Proof.
  revert acc. induction langs as [|l0 langs IH]; intros acc; cbn [foldl].
  - case_decide as H; [|done]. destruct H as [[]%elem_of_nil _].
  - rewrite IH. destruct (decide (lang ∈ langs ∧ lang ≠ ref)) as [[Hin Hne]|Hno].
    + rewrite decide_True; [done|]. split; [by apply list_elem_of_further|done].
    + destruct (decide (l0 = ref)) as [->|Hl0].
      * rewrite decide_False; [done|].
        intros [[->|Hin]%elem_of_cons Hne]; [done|]. apply Hno. done.
      * destruct (decide (lang = l0)) as [->|Hll].
        -- rewrite decide_True by (split; [apply list_elem_of_here|done]).
           apply lookup_insert_eq.
        -- rewrite decide_False.
           ++ by apply lookup_insert_ne.
           ++ intros [[->|Hin]%elem_of_cons Hne]; [done|]. apply Hno. done.
Qed.

(** The loader builds well-formed category dictionaries, and the methods
    keep them so. *)
Lemma extract_language_data_wf (attrs : list (string * py_value)) :
  wf (extract_language_data attrs).
Proof.
  unfold extract_language_data.
  assert (∀ acc : catalog,
            wf acc →
            wf (foldl (fun (acc : catalog) '(attr_name, attr_value) =>
                         if negb (PyStr.startswith_char attr_name "_")
                         then match attr_value with
                              | PyDict d => set acc (PyStr.lower attr_name) d
                              | PyOther => acc
                              end
                         else acc) acc attrs)) as Hgen.
  { induction attrs as [|[n v] attrs IH]; intros acc Hacc; cbn [foldl]; [done|].
    apply IH. destruct (negb (PyStr.startswith_char n "_")); [|done].
    destruct v as [d|]; [|done]. by apply wf_set. }
  apply Hgen. apply NoDup_nil_2.
Qed.

Lemma load_language_data_wf (import_module : string → import_result)
    (st : LanguageManager) (language_code : string) :
  wf_categories st →
  wf_categories (_load_language_data import_module st language_code).
Proof.
  intros Hst lang c. unfold _load_language_data.
  destruct (import_module (module_path language_code)) as [attrs| |];
    cbn [with_data language_data];
    (destruct (decide (lang = language_code)) as [->|Hne];
     [rewrite lookup_insert_eq; intros [= <-]
     |rewrite lookup_insert_ne by done; apply Hst]).
  - apply extract_language_data_wf.
  - by apply (bool_decide_unpack _).
  - apply NoDup_nil_2.
Qed.

Lemma init_wf (import_module : string → import_result)
    (default_language : string) :
  wf_categories (init import_module default_language).
Proof.
  unfold init, _load_all_languages.
  assert (∀ langs st, wf_categories st →
            wf_categories
              (foldl (fun st lang_code =>
                        match language_data st !! lang_code with
                        | None => _load_language_data import_module st lang_code
                        | Some _ => st
                        end) st langs)) as Hgen.
  { induction langs as [|l langs IH]; intros st Hst; cbn [foldl]; [done|].
    apply IH. destruct (language_data st !! l); [done|].
    by apply load_language_data_wf. }
  apply Hgen. intros lang c. cbn [language_data]. by rewrite lookup_empty.
Qed.

Lemma set_language_wf (import_module : string → import_result)
    (st : LanguageManager) (language : string) :
  wf_categories st → wf_categories (set_language import_module st language).
Proof.
  intros Hst. unfold set_language.
  destruct (language_data st !! _normalize_language_code language); [exact Hst|].
  apply (load_language_data_wf import_module st _ Hst).
Qed.

(** C4 (amended): [validate_language_completeness] returns a mapping whose
    keys are exactly the supported languages other than the normalized
    reference, each mapped to category -> list of the keys of the
    reference's category that the language's category of the same name
    lacks, in the reference's key order; a category whose list would be
    empty is left out, and a language with no gaps is kept, mapped to the
    empty mapping. *)
Theorem validate_language_completeness_spec
    (hash_order : list string) (st : LanguageManager)
    (reference_language : string) :
  let reference_lang := _normalize_language_code reference_language in
  let reference_data := default [] (language_data st !! reference_lang) in
  let result := validate_language_completeness hash_order st reference_language in
  wf reference_data →
  ∀ lang,
    (is_Some (result !! lang) ↔ lang ∈ hash_order ∧ lang ≠ reference_lang)
    ∧ ∀ missing_keys, result !! lang = Some missing_keys →
        (∀ cat ks,
           missing_keys !! cat = Some ks ↔
           ks ≠ [] ∧
           ∃ ref_texts,
             get reference_data cat = Some ref_texts ∧
             ks = filter (fun key => get (category_data st lang cat) key = None)
                         (keys ref_texts))
        ∧ ((∀ cat ref_texts key,
              get reference_data cat = Some ref_texts → key ∈ keys ref_texts →
              get (category_data st lang cat) key ≠ None) →
           missing_keys = ∅).
Proof.
  intros reference_lang reference_data result Hwf lang.
  assert (result !! lang
          = if decide (lang ∈ hash_order ∧ lang ≠ reference_lang)
            then Some (missing_keys_of reference_data
                         (default [] (language_data st !! lang)))
            else None) as Hres.
  { unfold result, validate_language_completeness, get_supported_languages.
    fold reference_lang. fold reference_data.
    rewrite (validation_result_lookup_acc
               (fun l => missing_keys_of reference_data
                           (default [] (language_data st !! l)))).
    by rewrite lookup_empty. }
  split.
  - rewrite Hres. destruct (decide (lang ∈ hash_order ∧ lang ≠ reference_lang))
      as [H|H].
    + split; [done|]. intros _. by eexists.
    + split; [|done]. intros [? [=]].
  - intros missing_keys Hmk. rewrite Hres in Hmk.
    case_decide as H; [|done]. injection Hmk as <-.
    assert (∀ cat, missing_keys_of reference_data
                     (default [] (language_data st !! lang)) !! cat
                   = match get reference_data cat with
                     | Some ref_texts =>
                         match filter (fun key => get (category_data st lang cat) key = None)
                                 (keys ref_texts) with
                         | [] => None
                         | m => Some m
                         end
                     | None => None
                     end) as Hcat.
    { intros cat. by rewrite (missing_keys_of_lookup _ _ _ Hwf). }
    split.
    + intros cat ks. rewrite Hcat. destruct (get reference_data cat) as [t|].
      * destruct (filter _ (keys t)) as [|k0 m0] eqn:Hf.
        -- split; [done|]. intros [Hne (t' & [= <-] & Hks)].
           rewrite Hf in Hks. done.
        -- split.
           ++ intros [= <-]. split; [done|]. by exists t.
           ++ intros [_ (t' & [= <-] & Hks)]. rewrite Hf in Hks. by subst ks.
      * split; [done|]. intros [_ (t' & [=] & _)].
    + intros Hcomplete. apply map_eq. intros cat.
      rewrite Hcat, lookup_empty. destruct (get reference_data cat) as [t|] eqn:Ht;
        [|done].
      destruct (filter _ (keys t)) as [|k0 m0] eqn:Hf; [done|].
      assert (k0 ∈ filter (fun key => get (category_data st lang cat) key = None)
                (keys t)) as Hk0 by (rewrite Hf; apply list_elem_of_here).
      apply list_elem_of_filter in Hk0 as [Hnone Hin].
      by destruct (Hcomplete cat t k0 Ht Hin).
Qed.

Lemma validate_language_completeness_spec_witness :
  wf (default [] (language_data Sample.st_en !! _normalize_language_code "EN"))
  ∧ (is_Some (validate_language_completeness Sample.vi_first Sample.st_en "EN"
              !! "vi")
     ↔ "vi" ∈ Sample.vi_first ∧ "vi" ≠ _normalize_language_code "EN").
Proof.
  assert (wf (default [] (language_data Sample.st_en
                            !! _normalize_language_code "EN"))) as Hwf.
  { destruct (language_data Sample.st_en !! _normalize_language_code "EN")
      as [c|] eqn:Hc; [|apply NoDup_nil_2].
    apply (init_wf Sample.modules "en" _ _ Hc). }
  split; [exact Hwf|].
  apply (validate_language_completeness_spec
           Sample.vi_first Sample.st_en "EN" Hwf "vi").
Defined.

(** The example of the specification: Vietnamese lacks "welcome" among the
    messages and nothing among the button texts. *)
Example validate_sample_gap :
  validate_language_completeness Sample.en_first Sample.st_en "en"
  = {[ "vi" := {[ "messages" := ["welcome"] ]} ]}.
Proof. vm_compute. reflexivity. Qed.

(** C4, as stated, fails: with catalogs that hold the same keys in both
    languages, the language without gaps is not left out of the result; it
    is there, mapped to the empty mapping. *)
Lemma validate_keeps_language_without_gaps :
  let st := init Sample.complete_modules "en" in
  language_data st !! "vi" = language_data st !! "en"
  ∧ validate_language_completeness Sample.en_first st "en" !! "vi" = Some ∅
  ∧ validate_language_completeness Sample.en_first st "en" ≠ ∅.
Proof.
  split; [vm_compute; reflexivity|].
  assert (validate_language_completeness Sample.en_first
            (init Sample.complete_modules "en") "en" !! "vi" = Some ∅) as H
    by (vm_compute; reflexivity).
  split; [exact H|].
  intros Hempty. rewrite Hempty, lookup_empty in H. discriminate H.
Qed.

(** ** Loading and switching *)

(** C5: [switch_language_temporarily] runs the block in a state whose
    current language is the normalized argument, and on both ways out of
    the block, return and exception, the state left behind has the current
    language the manager had before; the helper itself never writes the
    default language: the block starts with the old one and what the block
    leaves is kept, as is the exception it raised. *)
Theorem switch_language_temporarily_restores
    (import_module : string → import_result) (st : LanguageManager)
    (language : string) (block : LanguageManager → outcome) :
  let entry := set_language import_module st language in
  let out := switch_language_temporarily import_module st language block in
  current_language entry = _normalize_language_code language
  ∧ default_language entry = default_language st
  ∧ current_language (final_state out) = current_language st
  ∧ raised out = raised (block entry)
  ∧ default_language (final_state out) = default_language (final_state (block entry))
  ∧ language_data (final_state out) = language_data (final_state (block entry)).
Proof.
  intros entry out. split; [reflexivity|].
  split; [apply set_language_default|].
  unfold out, switch_language_temporarily. fold entry.
  by destruct (block entry).
Qed.

(** A block that looks up a text and then fails: the exception goes on,
    and the language is English again. *)
Example switch_language_temporarily_raising_block :
  switch_language_temporarily Sample.modules Sample.st_en "vn"
    (fun st => Raised (get_text_by_category Sample.en_first st "messages"
                         "goodbye" true) st)
  = Raised "Tam biet" Sample.st_en.
Proof. vm_compute. reflexivity. Qed.

(** C6, as stated, fails for a malformed source: when the import ends in
    an exception other than [ImportError], the entry stored has no
    category at all. *)
Lemma load_malformed_source_stores_no_category :
  Sample.broken_modules (module_path "vi") = RaisesException
  ∧ language_data
      (_load_language_data Sample.broken_modules Sample.st_en "vi") !! "vi"
    = Some []
  ∧ language_data
      (_load_language_data Sample.broken_modules Sample.st_en "vi") !! "vi"
    ≠ Some default_categories.
Proof.
  split; [reflexivity|].
  assert (language_data
            (_load_language_data Sample.broken_modules Sample.st_en "vi") !! "vi"
          = Some []) as H by (vm_compute; reflexivity).
  split; [exact H|]. intros H'.
  pose proof (eq_trans (eq_sym H) H') as Habs. discriminate Habs.
Qed.

(** C6 (amended): [_load_language_data] is total, so it raises nothing;
    after an [ImportError] (source not found) the entry of the language
    holds exactly the four default categories, each empty; after any other
    exception the entry is empty, with no category. Other languages and
    the current and default language are untouched. *)
Theorem load_language_data_failure
    (import_module : string → import_result) (st : LanguageManager)
    (language_code : string) :
  let st' := _load_language_data import_module st language_code in
  (import_module (module_path language_code) = RaisesImportError →
   language_data st' !! language_code
   = Some [("messages", []); ("button_texts", []); ("labels", []);
           ("validation_messages", [])])
  ∧ (import_module (module_path language_code) = RaisesException →
     language_data st' !! language_code = Some [])
  ∧ (∀ other, other ≠ language_code →
       language_data st' !! other = language_data st !! other)
  ∧ current_language st' = current_language st
  ∧ default_language st' = default_language st.
Proof.
  intros st'. unfold st', _load_language_data.
  destruct (import_module (module_path language_code));
    cbn [with_data language_data current_language default_language];
    repeat split; try done; intros;
    try apply lookup_insert_eq; by apply lookup_insert_ne.
Qed.

Lemma load_language_data_failure_witness :
  (fun _ : string => RaisesImportError) (module_path "vi") = RaisesImportError
  ∧ language_data
      (_load_language_data (fun _ => RaisesImportError) Sample.st_en "vi") !! "vi"
    = Some default_categories.
Proof.
  split; [reflexivity|].
  destruct (load_language_data_failure (fun _ => RaisesImportError)
              Sample.st_en "vi") as (Himport & _).
  apply Himport. reflexivity.
Defined.

(** ** Bulk lookup *)

Lemma bulk_lookup_acc (f : string → string) (keys : list string)
    (acc : gmap string string) (key : string) :
  foldl (fun (result : gmap string string) k => <[k := f k]> result) acc keys
  !! key
  = if decide (key ∈ keys) then Some (f key) else acc !! key.
Proof.
  revert acc. induction keys as [|k0 keys IH]; intros acc; cbn [foldl].
  - case_decide as H; [by apply elem_of_nil in H|done].
  - rewrite IH. destruct (decide (key ∈ keys)) as [Hin|Hnotin].
    + rewrite decide_True; [done|]. by apply list_elem_of_further.
    + destruct (decide (key = k0)) as [->|Hne].
      * rewrite decide_True by apply list_elem_of_here. apply lookup_insert_eq.
      * rewrite decide_False.
        -- by apply lookup_insert_ne.
        -- intros [->|Hin]%elem_of_cons; done.
Qed.

(** C7: the mapping [bulk_get_texts] returns has exactly the given keys as
    its domain, and each of them maps to what [get_text_by_category]
    returns for it (with its default [fallback=True]); the function is
    total, so a key that resolves to the placeholder stops nothing: a batch
    of a present and an absent key gives the text and the placeholder. *)
Theorem bulk_get_texts_spec
    (hash_order : list string) (st : LanguageManager) (keys : list string)
    (category : string) :
  dom (bulk_get_texts hash_order st keys category) = list_to_set keys
  ∧ (∀ key,
       bulk_get_texts hash_order st keys category !! key
       = if decide (key ∈ keys)
         then Some (get_text_by_category hash_order st category key true)
         else None)
  ∧ (∀ key,
       key ∈ keys →
       get (category_data st (current_language st) (PyStr.lower category)) key
       = None →
       fallback_scan st category key hash_order = None →
       bulk_get_texts hash_order st keys category !! key = Some (missing key)).
Proof.
  assert (∀ key,
            bulk_get_texts hash_order st keys category !! key
            = if decide (key ∈ keys)
              then Some (get_text_by_category hash_order st category key true)
              else None) as Hlookup.
  { intros key. unfold bulk_get_texts.
    rewrite (bulk_lookup_acc
               (fun k => get_text_by_category hash_order st category k true)).
    by rewrite lookup_empty. }
  split; [|split; [exact Hlookup|]].
  2:{ intros key Hin Hcur Hscan. rewrite Hlookup, decide_True by done.
      unfold get_text_by_category, get_supported_languages.
      by rewrite Hcur, Hscan. }
  apply set_eq. intros key. rewrite elem_of_dom, Hlookup, elem_of_list_to_set.
  destruct (decide (key ∈ keys)) as [H|H].
  - split; [done|]. intros _. by eexists.
  - split; [|done]. intros [? [=]].
Qed.

Lemma bulk_get_texts_spec_witness :
  bulk_get_texts Sample.vi_first Sample.st_en ["welcome"; "thanks"; "nope"]
    "Messages" !! "nope" = Some "[Missing: nope]"
  ∧ dom (bulk_get_texts Sample.vi_first Sample.st_en
           ["welcome"; "thanks"; "nope"] "Messages")
    = list_to_set ["welcome"; "thanks"; "nope"].
Proof.
  destruct (bulk_get_texts_spec Sample.vi_first Sample.st_en
              ["welcome"; "thanks"; "nope"] "Messages")
    as (Hdom & _ & Hmissing).
  split; [|exact Hdom].
  apply (Hmissing "nope").
  - apply list_elem_of_further, list_elem_of_further, list_elem_of_here.
  - vm_compute. reflexivity.
  - vm_compute. reflexivity.
Defined.

(** The example of the specification: one key present, one absent in
    every language. *)
Example bulk_get_texts_partial :
  bulk_get_texts Sample.en_first Sample.st_en ["welcome"; "nope"] "messages"
  = {[ "welcome" := "Welcome"; "nope" := "[Missing: nope]" ]}.
Proof. vm_compute. reflexivity. Qed.

(** ** Reverse lookup *)

Lemma find_in_texts_None (d : texts) (text : string) :
  find_in_texts d text = None ↔
  ∀ key value, (key, value) ∈ d → PyStr.lower value ≠ PyStr.lower text.
Proof.
  induction d as [|[k v] d IH]; simpl.
  - split; [intros _ ? ? []%elem_of_nil|done].
  - case_decide as Hv.
    + split; [done|]. intros H. destruct (H k v (list_elem_of_here _ _) Hv).
    + rewrite IH. split.
      * intros H key value [[= -> ->]|Hin]%elem_of_cons; eauto.
      * intros H key value Hin. apply (H key value). by apply list_elem_of_further.
Qed.

Lemma find_in_texts_Some (d : texts) (text key : string) :
  find_in_texts d text = Some key →
  ∃ value, (key, value) ∈ d ∧ PyStr.lower value = PyStr.lower text.
Proof.
  induction d as [|[k v] d IH]; simpl; [done|].
  case_decide as Hv.
  - intros [= <-]. exists v. split; [apply list_elem_of_here|done].
  - intros (value & Hin & Hval)%IH. exists value.
    split; [by apply list_elem_of_further|done].
Qed.

Lemma find_in_texts_first (pre post : texts) (key value text : string) :
  (∀ k v, (k, v) ∈ pre → PyStr.lower v ≠ PyStr.lower text) →
  PyStr.lower value = PyStr.lower text →
  find_in_texts (pre ++ (key, value) :: post) text = Some key.
Proof.
  intros Hpre Hval. induction pre as [|[k v] pre IH]; simpl.
  - by rewrite decide_True.
  - rewrite decide_False by (apply (Hpre k v), list_elem_of_here).
    apply IH. intros k' v' Hin. apply (Hpre k' v'). by apply list_elem_of_further.
Qed.

Lemma find_in_categories_None (cd : catalog) (cats : list string) (text : string) :
  find_in_categories cd cats text = None ↔
  ∀ cat key value, cat ∈ cats → (key, value) ∈ get_or_empty cd cat →
                   PyStr.lower value ≠ PyStr.lower text.
Proof.
  induction cats as [|c cats IH]; simpl.
  - split; [intros _ ? ? ? []%elem_of_nil|done].
  - destruct (find_in_texts (get_or_empty cd c) text) as [k|] eqn:Hc.
    + split; [done|]. intros H.
      apply find_in_texts_Some in Hc as (value & Hin & Hval).
      destruct (H c k value (list_elem_of_here _ _) Hin Hval).
    + rewrite IH. split.
      * intros H cat key value [->|Hcat]%elem_of_cons Hin.
        -- by eapply find_in_texts_None.
        -- by eapply H.
      * intros H cat key value Hcat. apply H. by apply list_elem_of_further.
Qed.

Lemma find_in_categories_Some (cd : catalog) (cats : list string)
    (text key : string) :
  find_in_categories cd cats text = Some key →
  ∃ cat value, cat ∈ cats ∧ (key, value) ∈ get_or_empty cd cat
               ∧ PyStr.lower value = PyStr.lower text.
Proof.
  induction cats as [|c cats IH]; simpl; [done|].
  destruct (find_in_texts (get_or_empty cd c) text) as [k|] eqn:Hc.
  - intros [= <-]. apply find_in_texts_Some in Hc as (value & Hin & Hval).
    exists c, value. split; [apply list_elem_of_here|done].
  - intros (cat & value & Hcat & Hin & Hval)%IH. exists cat, value.
    split; [by apply list_elem_of_further|done].
Qed.

Lemma find_in_categories_first (cd : catalog) (cpre cpost : list string)
    (cat : string) (pre post : texts) (key value text : string) :
  (∀ c k v, c ∈ cpre → (k, v) ∈ get_or_empty cd c →
            PyStr.lower v ≠ PyStr.lower text) →
  get_or_empty cd cat = pre ++ (key, value) :: post →
  (∀ k v, (k, v) ∈ pre → PyStr.lower v ≠ PyStr.lower text) →
  PyStr.lower value = PyStr.lower text →
  find_in_categories cd (cpre ++ cat :: cpost) text = Some key.
Proof.
  intros Hcpre Hcat Hpre Hval. induction cpre as [|c cpre IH]; simpl.
  - by rewrite Hcat, (find_in_texts_first pre post key value text Hpre Hval).
  - assert (find_in_texts (get_or_empty cd c) text = None) as ->.
    { apply find_in_texts_None. intros k v. apply Hcpre, list_elem_of_here. }
    apply IH. intros c' k v Hc'. apply Hcpre. by apply list_elem_of_further.
Qed.

(** C8, as stated, fails: two keys of one category can hold texts that
    differ only in case; the reverse lookup of the text of the later key
    returns the earlier key. *)
Lemma find_key_by_text_returns_earlier_key :
  get (category_data Sample.st_en (current_language Sample.st_en) "messages")
      "greeting" = Some "WELCOME"
  ∧ get_text_by_category Sample.en_first Sample.st_en "messages" "greeting" true
    = "WELCOME"
  ∧ find_key_by_text Sample.st_en "WELCOME" (Some "messages") = Some "welcome"
  ∧ find_key_by_text Sample.st_en "WELCOME" None = Some "welcome"
  ∧ find_key_by_text Sample.st_en "WELCOME" (Some "messages") ≠ Some "greeting".
Proof. vm_compute. repeat split; discriminate. Qed.

(** C8 (amended): [find_key_by_text] returns the first key, in the order
    of the categories searched and of the keys inside each, whose text
    equals the given text up to case. So for a key-text pair of the
    current language's data the lookup of its text returns that key when
    no pair before it in its category, and no pair of a category searched
    before, has a text equal up to case; whatever key is returned holds a
    text equal up to case; and [None] is returned exactly when no text of
    the categories searched is equal up to case. *)
Theorem find_key_by_text_first_match
    (st : LanguageManager) (text : string) (category : option string) :
  let current_data := default [] (language_data st !! current_language st) in
  let cats := categories_to_search current_data category in
  (∀ cpre cat cpost pre key value post,
     cats = cpre ++ cat :: cpost →
     (∀ c k v, c ∈ cpre → (k, v) ∈ get_or_empty current_data c →
               PyStr.lower v ≠ PyStr.lower text) →
     get_or_empty current_data cat = pre ++ (key, value) :: post →
     (∀ k v, (k, v) ∈ pre → PyStr.lower v ≠ PyStr.lower text) →
     PyStr.lower value = PyStr.lower text →
     find_key_by_text st text category = Some key)
  ∧ (∀ key,
       find_key_by_text st text category = Some key →
       ∃ cat value, cat ∈ cats ∧ (key, value) ∈ get_or_empty current_data cat
                    ∧ PyStr.lower value = PyStr.lower text)
  ∧ (find_key_by_text st text category = None ↔
     ∀ cat key value, cat ∈ cats → (key, value) ∈ get_or_empty current_data cat →
                      PyStr.lower value ≠ PyStr.lower text).
Proof.
  intros current_data cats. unfold find_key_by_text.
  fold current_data. fold cats. split; [|split].
  - intros cpre cat cpost pre key value post -> Hcpre Hcat Hpre Hval.
    by eapply find_in_categories_first.
  - intros key. apply find_in_categories_Some.
  - apply find_in_categories_None.
Qed.

Lemma find_key_by_text_first_match_witness :
  find_key_by_text Sample.st_en "GOODBYE" (Some "messages") = Some "goodbye"
  ∧ find_key_by_text Sample.st_en "submit" None = Some "submit".
Proof.
  split.
  - destruct (find_key_by_text_first_match Sample.st_en "GOODBYE"
                (Some "messages")) as (Hfirst & _).
    apply (Hfirst [] "messages" [] [("welcome", "Welcome")] "goodbye" "Goodbye"
             [("greeting", "WELCOME")]).
    + reflexivity.
    + intros c k v []%elem_of_nil.
    + vm_compute. reflexivity.
    + intros k v [[= -> ->]|[]%elem_of_nil]%elem_of_cons. vm_compute. discriminate.
    + vm_compute. reflexivity.
  - destruct (find_key_by_text_first_match Sample.st_en "submit" None)
      as (Hfirst & _).
    apply (Hfirst [] "button_texts" ["messages"] [("login", "Login")] "submit"
             "Submit" []).
    + vm_compute. reflexivity.
    + intros c k v []%elem_of_nil.
    + vm_compute. reflexivity.
    + intros k v [[= -> ->]|[]%elem_of_nil]%elem_of_cons. vm_compute. discriminate.
    + vm_compute. reflexivity.
Defined.

(** ** Order of the fallback scan *)

(** C9, as stated, fails in its reason: the list
    [get_supported_languages] returns is the iteration order of a [set], and
    both orders of the two codes are iteration orders of that set; the
    loop of the fallback scan runs through the codes in either. *)
Lemma supported_languages_order_not_fixed :
  set_iteration_order Sample.en_first
  ∧ set_iteration_order Sample.vi_first
  ∧ get_supported_languages Sample.en_first
    ≠ get_supported_languages Sample.vi_first.
Proof.
  split; [apply set_iteration_order_cases; by left|].
  split; [apply set_iteration_order_cases; by right|]. discriminate.
Qed.

(** C9 (amended): whatever order the set of supported codes iterates in,
    the fallback scan of a state whose current language is a supported code
    gives the same source language and text, and so does the lookup: of
    the two supported codes exactly one is other than the current one, so
    the languages the scan looks into are the same one-element sequence in
    both orders. *)
Theorem fallback_scan_order_independent
    (order1 order2 : list string) (st : LanguageManager)
    (category key : string) (fallback : bool) :
  set_iteration_order order1 → set_iteration_order order2 →
  normalized_state st →
  fallback_scan st category key (get_supported_languages order1)
  = fallback_scan st category key (get_supported_languages order2)
  ∧ get_text_by_category order1 st category key fallback
    = get_text_by_category order2 st category key fallback
  ∧ filter (fun l => l ≠ current_language st) (get_supported_languages order1)
    = filter (fun l => l ≠ current_language st) (get_supported_languages order2).
Proof.
  intros Ho1%set_iteration_order_cases Ho2%set_iteration_order_cases Hnorm.
  apply elem_of_supported in Hnorm.
  unfold get_supported_languages.
  assert (fallback_scan st category key order1
          = fallback_scan st category key order2) as Hscan.
  { destruct Ho1 as [-> | ->], Ho2 as [-> | ->]; try reflexivity;
      destruct Hnorm as [Hc|Hc]; simpl; rewrite Hc;
      repeat case_decide; try congruence; try done;
      by destruct (get _ key). }
  split; [exact Hscan|]. split.
  - unfold get_text_by_category, get_supported_languages. by rewrite Hscan.
  - destruct Ho1 as [-> | ->], Ho2 as [-> | ->]; try reflexivity;
      destruct Hnorm as [Hc|Hc]; rewrite Hc; reflexivity.
Qed.

Lemma fallback_scan_order_independent_witness :
  fallback_scan Sample.st_en "Messages" "thanks"
    (get_supported_languages Sample.en_first)
  = fallback_scan Sample.st_en "Messages" "thanks"
      (get_supported_languages Sample.vi_first).
Proof.
  apply (fallback_scan_order_independent Sample.en_first Sample.vi_first
           Sample.st_en "Messages" "thanks" true).
  - apply set_iteration_order_cases. by left.
  - apply set_iteration_order_cases. by right.
  - apply (init_normalized Sample.modules "en").
Defined.

(** Outside the states the methods build, the order shows: were the
    current language no supported code, both codes would be "other" and
    the first of the iteration order that has the key would win. *)
Remark fallback_scan_order_shows_off_invariant :
  let st := with_current Sample.st_en "fr" in
  fallback_scan st "messages" "goodbye" Sample.en_first = Some ("en", "Goodbye")
  ∧ fallback_scan st "messages" "goodbye" Sample.vi_first = Some ("vi", "Tam biet").
Proof. vm_compute. split; reflexivity. Qed.

(** ** Case of category names *)

Lemma extract_language_data_lowercase (attrs : list (string * py_value)) :
  ∀ cat, cat ∈ keys (extract_language_data attrs) → PyStr.lower cat = cat.
Proof.
  unfold extract_language_data.
  assert (∀ acc : catalog,
            (∀ cat, cat ∈ keys acc → PyStr.lower cat = cat) →
            ∀ cat,
              cat ∈ keys (foldl (fun (acc : catalog) '(attr_name, attr_value) =>
                                   if negb (PyStr.startswith_char attr_name "_")
                                   then match attr_value with
                                        | PyDict d => set acc (PyStr.lower attr_name) d
                                        | PyOther => acc
                                        end
                                   else acc) acc attrs) →
              PyStr.lower cat = cat) as Hgen.
  { induction attrs as [|[n v] attrs IH]; intros acc Hacc; cbn [foldl]; [done|].
    apply IH. destruct (negb (PyStr.startswith_char n "_")); [|done].
    destruct v as [d|]; [|done].
    intros cat [->|Hin]%keys_set; [apply lower_idem|by apply Hacc]. }
  apply Hgen. intros cat []%elem_of_nil.
Qed.

Lemma load_language_data_lowercase (import_module : string → import_result)
    (st : LanguageManager) (language_code : string) :
  lowercase_categories st →
  lowercase_categories (_load_language_data import_module st language_code).
Proof.
  intros Hst lang c cat. unfold _load_language_data.
  destruct (import_module (module_path language_code)) as [attrs| |];
    cbn [with_data language_data];
    (destruct (decide (lang = language_code)) as [->|Hne];
     [rewrite lookup_insert_eq; intros [= <-]
     |rewrite lookup_insert_ne by done; apply Hst]).
  - apply extract_language_data_lowercase.
  - unfold keys, default_categories. simpl.
    rewrite !elem_of_cons, elem_of_nil. intros [->|[->|[->|[->|[]]]]]; reflexivity.
  - intros []%elem_of_nil.
Qed.

Lemma init_lowercase_categories (import_module : string → import_result)
    (default_language : string) :
  lowercase_categories (init import_module default_language).
Proof.
  unfold init, _load_all_languages.
  assert (∀ langs st, lowercase_categories st →
            lowercase_categories
              (foldl (fun st lang_code =>
                        match language_data st !! lang_code with
                        | None => _load_language_data import_module st lang_code
                        | Some _ => st
                        end) st langs)) as Hgen.
  { induction langs as [|l langs IH]; intros st Hst; cbn [foldl]; [done|].
    apply IH. destruct (language_data st !! l); [done|].
    by apply load_language_data_lowercase. }
  apply Hgen. intros lang c cat. cbn [language_data]. by rewrite lookup_empty.
Qed.

Lemma set_language_lowercase (import_module : string → import_result)
    (st : LanguageManager) (language : string) :
  lowercase_categories st →
  lowercase_categories (set_language import_module st language).
Proof.
  intros Hst. unfold set_language.
  destruct (language_data st !! _normalize_language_code language); [exact Hst|].
  apply (load_language_data_lowercase import_module st _ Hst).
Qed.

(** C10: [get_text_by_category] lowercases the category, so the call with
    [category] and the call with [category.lower()] return the same text;
    [get_available_keys] and [find_key_by_text] look the category up as
    given, so on data whose category names are stored in lower case (as
    the loader stores them) a category argument with an upper-case letter
    gives no key and no reverse match, whatever [get_text_by_category]
    finds for it. [validate_language_completeness] takes no category; it
    looks the stored names up as they are. *)
Theorem category_case_sensitivity
    (hash_order : list string) (st : LanguageManager)
    (category key text : string) (fallback : bool) (language : option string) :
  get_text_by_category hash_order st category key fallback
  = get_text_by_category hash_order st (PyStr.lower category) key fallback
  ∧ (lowercase_categories st → PyStr.lower category ≠ category →
     get_available_keys st (Some category) language = ∅
     ∧ find_key_by_text st text (Some category) = None).
Proof.
  split.
  - unfold get_text_by_category.
    assert (∀ langs, fallback_scan st category key langs
                     = fallback_scan st (PyStr.lower category) key langs) as Hscan.
    { induction langs as [|l langs IH]; simpl; [done|].
      by rewrite lower_idem, IH. }
    by rewrite lower_idem, Hscan.
  - intros Hlow Hupper.
    assert (PyStr.truthy category = true) as Htruthy.
    { destruct category; [by destruct Hupper|done]. }
    assert (∀ lang, get_or_empty (default [] (language_data st !! lang)) category
                    = []) as Hempty.
    { intros lang. unfold get_or_empty.
      destruct (get _ category) as [d|] eqn:Hget; [|done].
      destruct (language_data st !! lang) as [c|] eqn:Hc; [|done].
      destruct Hupper. apply (Hlow lang c category Hc).
      destruct (decide (category ∈ keys c)) as [Hin|Hnotin]; [done|].
      apply get_None in Hnotin. simpl in Hget. congruence. }
    split.
    + unfold get_available_keys. rewrite Htruthy, Hempty. reflexivity.
    + unfold find_key_by_text, categories_to_search. rewrite Htruthy.
      simpl. by rewrite Hempty.
Qed.

Lemma category_case_sensitivity_witness :
  get_text_by_category Sample.en_first Sample.st_en "MESSAGES" "welcome" true
  = "Welcome"
  ∧ get_available_keys Sample.st_en (Some "MESSAGES") None = ∅
  ∧ find_key_by_text Sample.st_en "Welcome" (Some "MESSAGES") = None
  ∧ get_available_keys Sample.st_en (Some "messages") None
    = {[ "welcome"; "goodbye"; "greeting" ]}.
Proof.
  destruct (category_case_sensitivity Sample.en_first Sample.st_en "MESSAGES"
              "welcome" "Welcome" true None) as [Hsame Hupper].
  split; [rewrite Hsame; vm_compute; reflexivity|].
  destruct Hupper as [Hkeys Hfind].
  - apply (init_lowercase_categories Sample.modules "en").
  - vm_compute. discriminate.
  - split; [exact Hkeys|]. split; [exact Hfind|]. vm_compute. reflexivity.
Defined.

(** * Further properties of the code *)

(** ** The loader *)

Lemma get_set {V} (d : odict V) (k k' : string) (v : V) :
  get (set d k v) k' = if decide (k = k') then Some v else get d k'.
Proof.
  induction d as [|[k0 v0] d IH]; simpl.
  - done.
  - destruct (decide (k0 = k)) as [->|Hk0]; simpl.
    + by destruct (decide (k = k')).
    + rewrite IH. destruct (decide (k0 = k')) as [->|?]; [|done].
      by rewrite decide_False.
Qed.

(** One turn of the loop over [dir(language_module)]. *)
Lemma extract_step_get (acc : catalog) (n : string) (v : py_value) (c : string) :
  get (if negb (PyStr.startswith_char n "_")
       then match v with
            | PyDict d => set acc (PyStr.lower n) d
            | PyOther => acc
            end
       else acc) c
  = match v with
    | PyDict d =>
        if negb (PyStr.startswith_char n "_") && bool_decide (PyStr.lower n = c)
        then Some d else get acc c
    | PyOther => get acc c
    end.
Proof.
  destruct v as [d|]; destruct (PyStr.startswith_char n "_"); simpl; try done.
  rewrite get_set.
  case_bool_decide as H; [by rewrite decide_True|by rewrite decide_False].
Qed.

Lemma extract_fold_get_None (attrs : list (string * py_value)) (acc : catalog)
    (c : string) :
  get (foldl (fun (acc : catalog) '(attr_name, attr_value) =>
                if negb (PyStr.startswith_char attr_name "_")
                then match attr_value with
                     | PyDict d => set acc (PyStr.lower attr_name) d
                     | PyOther => acc
                     end
                else acc) acc attrs) c = None ↔
  get acc c = None
  ∧ ∀ n d, (n, PyDict d) ∈ attrs → PyStr.startswith_char n "_" = false →
           PyStr.lower n ≠ c.
Proof.
  revert acc. induction attrs as [|[n v] attrs IH]; intros acc; cbn [foldl].
  - split; [intros H; split; [done|intros ? ? []%elem_of_nil]|by intros [? _]].
  - rewrite IH, extract_step_get. split.
    + intros [Hacc Hrest]. destruct v as [d|].
      * destruct (PyStr.startswith_char n "_") eqn:Hn; simpl in Hacc.
        -- split; [done|]. intros n' d' [[= -> ->]|Hin]%elem_of_cons ?;
             [congruence|by apply (Hrest n' d')].
        -- case_bool_decide as Hc; [done|]. split; [done|].
           intros n' d' [[= -> ->]|Hin]%elem_of_cons ?;
             [done|by apply (Hrest n' d')].
      * split; [done|]. intros n' d' [[=]|Hin]%elem_of_cons ?.
        by apply (Hrest n' d').
    + intros [Hacc Hall]. split.
      * destruct v as [d|]; [|done].
        destruct (PyStr.startswith_char n "_") eqn:Hn; simpl; [done|].
        rewrite bool_decide_eq_false_2; [done|].
        apply (Hall n d); [apply list_elem_of_here|done].
      * intros n' d' Hin. apply (Hall n' d'). by apply list_elem_of_further.
Qed.

Lemma extract_fold_get_keep (attrs : list (string * py_value)) (acc : catalog)
    (c : string) :
  (∀ n d, (n, PyDict d) ∈ attrs → PyStr.startswith_char n "_" = false →
          PyStr.lower n ≠ c) →
  get (foldl (fun (acc : catalog) '(attr_name, attr_value) =>
                if negb (PyStr.startswith_char attr_name "_")
                then match attr_value with
                     | PyDict d => set acc (PyStr.lower attr_name) d
                     | PyOther => acc
                     end
                else acc) acc attrs) c = get acc c.
Proof.
  revert acc. induction attrs as [|[n v] attrs IH]; intros acc Hall; cbn [foldl];
    [done|].
  rewrite IH
    by (intros n' d' Hin; apply (Hall n' d'); by apply list_elem_of_further).
  rewrite extract_step_get. destruct v as [d|]; [|done].
  destruct (PyStr.startswith_char n "_") eqn:Hn; simpl; [done|].
  rewrite bool_decide_eq_false_2; [done|].
  apply (Hall n d); [apply list_elem_of_here|done].
Qed.

(** X1: the catalog read from a language module has, under a category
    name, the dictionary of the last public attribute (in [dir()] order)
    that is a dictionary and whose lowercased name is that category: names
    that differ only in case fall into one category and the later one
    replaces the earlier; a category is absent exactly when no public
    dictionary attribute lowercases to it, so private attributes and
    attributes that are no dictionaries never show. *)
Theorem extract_language_data_last_wins
    (attrs : list (string * py_value)) (c : string) :
  (∀ pre n d post,
     attrs = pre ++ (n, PyDict d) :: post →
     PyStr.startswith_char n "_" = false →
     PyStr.lower n = c →
     (∀ n' d', (n', PyDict d') ∈ post → PyStr.startswith_char n' "_" = false →
               PyStr.lower n' ≠ c) →
     get (extract_language_data attrs) c = Some d)
  ∧ (get (extract_language_data attrs) c = None ↔
     ∀ n d, (n, PyDict d) ∈ attrs → PyStr.startswith_char n "_" = false →
            PyStr.lower n ≠ c).
Proof.
  unfold extract_language_data. split.
  - intros pre n d post -> Hn Hc Hpost.
    rewrite foldl_app. cbn [foldl].
    rewrite (extract_fold_get_keep post _ c Hpost). cbn beta iota.
    rewrite Hn. simpl. rewrite get_set. by rewrite decide_True.
  - rewrite extract_fold_get_None. simpl. tauto.
Qed.

Lemma extract_language_data_last_wins_witness :
  get (extract_language_data
         [("MESSAGES", PyDict [("a", "1")]); ("Messages", PyDict [("b", "2")]);
          ("_messages", PyDict [("c", "3")]); ("messages", PyOther)])
      "messages"
  = Some [("b", "2")].
Proof.
  destruct (extract_language_data_last_wins
              [("MESSAGES", PyDict [("a", "1")]); ("Messages", PyDict [("b", "2")]);
               ("_messages", PyDict [("c", "3")]); ("messages", PyOther)]
              "messages") as [Hlast _].
  apply (Hlast [("MESSAGES", PyDict [("a", "1")])] "Messages" [("b", "2")]
           [("_messages", PyDict [("c", "3")]); ("messages", PyOther)]);
    [reflexivity..|].
  intros n' d' Hin Hpub.
  rewrite !elem_of_cons, elem_of_nil in Hin.
  destruct Hin as [[= -> ->]|[[=]|[]]]. discriminate Hpub.
Defined.

(** ** Construction and the catalog *)

Lemma load_language_data_stored (import_module : string → import_result)
    (st : LanguageManager) (language_code : string) :
  _load_language_data import_module st language_code
  = with_data st language_code (stored_entry import_module language_code).
Proof.
  unfold _load_language_data, stored_entry. by destruct (import_module _).
Qed.

Lemma load_all_languages_data (import_module : string → import_result)
    (st : LanguageManager) :
  language_data (_load_all_languages import_module st)
  = foldl (fun (m : gmap string catalog) l =>
             match m !! l with
             | None => <[l := stored_entry import_module l]> m
             | Some _ => m
             end)
          (language_data st) mapping_values.
Proof.
  unfold _load_all_languages. generalize mapping_values. intros langs.
  revert st. induction langs as [|l langs IH]; intros st; cbn [foldl]; [done|].
  rewrite IH. f_equal.
  destruct (language_data st !! l); [done|].
  by rewrite load_language_data_stored.
Qed.

Lemma init_language_data
    (import_module : string → import_result) (default_language0 : string) :
  language_data (init import_module default_language0)
  = <["vi" := stored_entry import_module "vi"]>
      (<["en" := stored_entry import_module "en"]> ∅).
Proof.
  unfold init. rewrite load_all_languages_data.
  unfold mapping_values, LANGUAGE_MAPPINGS.
  cbn [fmap list_fmap snd foldl language_data].
  rewrite lookup_empty, lookup_insert_eq.
  rewrite lookup_insert_ne, lookup_empty by done.
  by rewrite lookup_insert_eq.
Qed.

Lemma init_all_loaded
    (import_module : string → import_result) (default_language0 : string) :
  all_loaded (init import_module default_language0).
Proof.
  intros l [-> | ->]%elem_of_supported; rewrite init_language_data.
  - rewrite lookup_insert_ne, lookup_insert_eq by done. by eexists.
  - rewrite lookup_insert_eq. by eexists.
Qed.


Lemma last_cons_default {A} (x : A) (xs : list A) (d : A) :
  List.last (x :: xs) d = List.last xs x.
Proof.
  revert x d. induction xs as [|y ys IH]; intros x d; [done|].
  change (List.last (x :: y :: ys) d) with (List.last (y :: ys) d).
  by rewrite !IH.
Qed.

Lemma set_language_loaded (import_module : string → import_result)
    (st : LanguageManager) (language : string) :
  all_loaded st →
  set_language import_module st language
  = with_current st (_normalize_language_code language).
Proof.
  intros Hloaded. unfold set_language.
  destruct (Hloaded (_normalize_language_code language)) as [c ->]; [|done].
  apply elem_of_supported, normalize_in_supported.
Qed.

(** X3: once the constructor has run, no sequence of [set_language] calls
    changes the catalog or the default language, whatever languages are
    asked for and whatever the modules on disk have become since: no
    language is imported a second time. *)
Theorem set_language_never_reloads
    (import_module import_module' : string → import_result)
    (default_language0 : string) (languages : list string) :
  let st := foldl (set_language import_module')
                  (init import_module default_language0) languages in
  language_data st = language_data (init import_module default_language0)
  ∧ default_language st = _normalize_language_code default_language0
  ∧ current_language st
    = _normalize_language_code (List.last languages default_language0).
Proof.
  cbn zeta.
  assert (∀ st0 d0,
            all_loaded st0 → current_language st0 = _normalize_language_code d0 →
            let st := foldl (set_language import_module') st0 languages in
            language_data st = language_data st0
            ∧ default_language st = default_language st0
            ∧ current_language st
              = _normalize_language_code (List.last languages d0)) as Hgen.
  { induction languages as [|l ls IH]; intros st0 d0 Hloaded Hcur; cbn [foldl].
    - done.
    - rewrite (set_language_loaded _ _ _ Hloaded).
      destruct (IH (with_current st0 (_normalize_language_code l)) l)
        as (Hd & Hdef & Hc); [done|done|].
      split; [exact Hd|]. split; [exact Hdef|].
      rewrite Hc. by rewrite last_cons_default. }
  destruct (Hgen (init import_module default_language0) default_language0)
    as (Hd & Hdef & Hc).
  - apply init_all_loaded.
  - apply init_normalized.
  - split; [exact Hd|]. split; [|exact Hc].
    rewrite Hdef. apply init_default.
Qed.

(** X4: on a manager whose supported languages are all loaded, a
    temporary switch around a block that leaves the catalog and the default
    language of such managers alone gives back exactly the state it started
    from, whether the block returns or raises and whatever language the
    block itself switched to. *)
Theorem switch_language_temporarily_round_trip
    (import_module : string → import_result) (st : LanguageManager)
    (language : string) (block : LanguageManager → outcome) :
  all_loaded st →
  (∀ s, all_loaded s →
        language_data (final_state (block s)) = language_data s
        ∧ default_language (final_state (block s)) = default_language s) →
  final_state (switch_language_temporarily import_module st language block) = st.
Proof.
  intros Hloaded Hblock. unfold switch_language_temporarily.
  rewrite (set_language_loaded _ _ _ Hloaded).
  destruct (Hblock (with_current st (_normalize_language_code language)))
    as [Hd Hdef]; [exact Hloaded|].
  destruct st as [cur def data].
  destruct (block _) as [[cur' def' data']|e [cur' def' data']];
    cbn in *; by subst.
Qed.

Lemma switch_language_temporarily_round_trip_witness :
  final_state
    (switch_language_temporarily Sample.modules Sample.st_en "vi"
       (fun s => Raised "stop" (set_language Sample.modules s "english")))
  = Sample.st_en.
Proof.
  assert (all_loaded Sample.st_en) as Hloaded
    by apply (init_all_loaded Sample.modules "en").
  apply (switch_language_temporarily_round_trip Sample.modules Sample.st_en "vi"
           (fun s => Raised "stop" (set_language Sample.modules s "english"))
           Hloaded).
  intros s Hs. cbn [final_state].
  by rewrite (set_language_loaded _ _ _ Hs).
Defined.

(** ** Languages nobody supports, and languages that failed to load *)

Lemma normalize_unknown (language : string) :
  get LANGUAGE_MAPPINGS (PyStr.strip (PyStr.lower language)) = None →
  _normalize_language_code language = "en".
Proof.
  intros H. unfold _normalize_language_code.
  destruct (negb (PyStr.truthy language)); [done|]. by rewrite H.
Qed.

(** X5: a language name the alias table does not know is treated as
    English by every method that takes a language: [get_texts_for_language]
    returns the English catalog (not an empty one), [export_language_data]
    reports language "en" with the English data, and [get_available_keys]
    returns the English keys. *)
Theorem unknown_language_reads_english
    (hash_order : list string) (st : LanguageManager)
    (language : string) (category : option string) :
  get LANGUAGE_MAPPINGS (PyStr.strip (PyStr.lower language)) = None →
  language ≠ "" →
  get_texts_for_language st language = default [] (language_data st !! "en")
  ∧ export_language_data hash_order st (Some language)
    = ExportLanguage "en" (default [] (language_data st !! "en"))
  ∧ get_available_keys st category (Some language)
    = get_available_keys st category (Some "en").
Proof.
  intros Hunknown Hne.
  assert (PyStr.truthy language = true) as Htruthy by (by destruct language).
  pose proof (normalize_unknown language Hunknown) as Hnorm.
  unfold get_texts_for_language, export_language_data, get_available_keys.
  rewrite Htruthy, Hnorm. by cbn.
Qed.

Lemma unknown_language_reads_english_witness :
  get_texts_for_language Sample.st_vi "francais"
  = default [] (language_data Sample.st_vi !! "en").
Proof.
  apply (unknown_language_reads_english Sample.en_first Sample.st_vi
           "francais" None); [reflexivity|discriminate].
Defined.

Lemma find_in_categories_empty (cd : catalog) (cats : list string) (text : string) :
  (∀ cat, cat ∈ cats → get_or_empty cd cat = []) →
  find_in_categories cd cats text = None.
Proof.
  intros H. apply find_in_categories_None. intros cat key value Hcat Hin.
  rewrite (H cat Hcat) in Hin. by apply elem_of_nil in Hin.
Qed.

Lemma empty_catalog_reads (cd : catalog) :
  cd = default_categories ∨ cd = [] →
  (∀ cat, get_or_empty cd cat = []) ∧ all_keys cd = ∅.
Proof.
  intros [-> | ->]; (split; [|reflexivity]); intros cat; [|done].
  unfold get_or_empty, default_categories. simpl.
  repeat case_decide; done.
Qed.

(** X6: when the module of the current language cannot be loaded,
    whether by an [ImportError] or by another exception, every lookup in
    that language comes out empty instead of failing: without fallback
    every text is the placeholder, the reverse lookup finds no key, and no
    key is available, in any category. *)
Theorem failed_load_leaves_language_empty
    (import_module : string → import_result) (hash_order : list string)
    (st : LanguageManager) (category key text : string)
    (search : option string) :
  import_module (module_path (current_language st)) = RaisesImportError
  ∨ import_module (module_path (current_language st)) = RaisesException →
  let st' := _load_language_data import_module st (current_language st) in
  get_text_by_category hash_order st' category key false = missing key
  ∧ find_key_by_text st' text search = None
  ∧ get_available_keys st' search None = ∅.
Proof.
  intros Hfail st'. unfold st'. rewrite load_language_data_stored.
  assert (stored_entry import_module (current_language st) = default_categories
          ∨ stored_entry import_module (current_language st) = []) as Hentry.
  { unfold stored_entry. destruct Hfail as [-> | ->]; auto. }
  destruct (empty_catalog_reads _ Hentry) as [Hempty Hall].
  unfold get_text_by_category, category_data, find_key_by_text,
    get_available_keys.
  cbn [with_data current_language language_data].
  rewrite !lookup_insert_eq. cbn [default]. split; [|split].
  - by rewrite Hempty.
  - apply find_in_categories_empty. intros cat _. apply Hempty.
  - destruct search as [c|]; [|exact Hall].
    destruct (PyStr.truthy c); [|exact Hall]. by rewrite Hempty.
Qed.

Lemma failed_load_leaves_language_empty_witness :
  get_text_by_category Sample.en_first
    (_load_language_data Sample.broken_modules Sample.st_vi "vi")
    "messages" "goodbye" false
  = "[Missing: goodbye]".
Proof.
  apply (failed_load_leaves_language_empty Sample.broken_modules Sample.en_first
           Sample.st_vi "messages" "goodbye" "" None).
  right. reflexivity.
Defined.

(** ** Available keys *)

Lemma elem_of_all_keys (lang_data : catalog) (k : string) :
  k ∈ all_keys lang_data ↔
  ∃ cat (d : texts), (cat, d) ∈ lang_data ∧ k ∈ keys d.
Proof.
  unfold all_keys.
  assert (∀ (ds : list texts) (acc : gset string),
            k ∈ foldl (fun (acc : gset string) (cat_data : texts) =>
                         acc ∪ list_to_set (keys cat_data)) acc ds
            ↔ k ∈ acc ∨ ∃ d, d ∈ ds ∧ k ∈ keys d) as Hgen.
  { induction ds as [|d ds IH]; intros acc; cbn [foldl].
    - split; [auto|]. intros [?|(d & []%elem_of_nil & _)]; done.
    - rewrite IH, elem_of_union, elem_of_list_to_set. split.
      + intros [[?|?]|(d' & Hd' & ?)]; [by left| |].
        * right. exists d. split; [apply list_elem_of_here|done].
        * right. exists d'. split; [by apply list_elem_of_further|done].
      + intros [?|(d' & [->|Hd']%elem_of_cons & ?)]; [by left; left| |].
        * by left; right.
        * right. by exists d'. }
  rewrite Hgen. split.
  - intros [[]%not_elem_of_empty|(d & Hd & Hk)].
    apply list_elem_of_fmap in Hd as ([cat d'] & -> & Hin). by exists cat, d'.
  - intros (cat & d & Hin & Hk). right. exists d. split; [|done].
    apply list_elem_of_fmap. by exists (cat, d).
Qed.

(** X7: without a category [get_available_keys] returns exactly the keys
    that occur in some category of the language, and the keys it returns
    for one category are among them. *)
Theorem get_available_keys_union
    (st : LanguageManager) (category : string) (k : string) :
  let lang_data := default [] (language_data st !! current_language st) in
  (k ∈ get_available_keys st None None ↔
   ∃ cat (d : texts), (cat, d) ∈ lang_data ∧ k ∈ keys d)
  ∧ (k ∈ get_available_keys st (Some category) None →
     k ∈ get_available_keys st None None).
Proof.
  intros lang_data. unfold get_available_keys. fold lang_data.
  split; [apply elem_of_all_keys|].
  destruct (PyStr.truthy category); [|done].
  rewrite elem_of_list_to_set. intros Hk. apply elem_of_all_keys.
  unfold get_or_empty in Hk.
  destruct (get lang_data category) as [d|] eqn:Hd;
    [|by apply elem_of_nil in Hk].
  exists category, d. split; [by apply get_Some_elem|done].
Qed.

Lemma get_available_keys_union_witness :
  "login" ∈ get_available_keys Sample.st_en None None.
Proof.
  destruct (get_available_keys_union Sample.st_en "button_texts" "login")
    as [_ Hsub].
  apply Hsub. apply (bool_decide_unpack _). vm_compute. reflexivity.
Defined.

Lemma elem_of_keys_get {V} (d : odict V) (k : string) :
  k ∈ keys d ↔ ∃ v, get d k = Some v.
Proof.
  destruct (get d k) as [v|] eqn:H.
  - split; [by eexists|]. intros _.
    destruct (decide (k ∈ keys d)) as [|Hn]; [done|].
    apply get_None in Hn. congruence.
  - split; [|by intros [? [=]]]. intros Hin. by apply get_None in H.
Qed.

(** X8: for a category given in lower case, the keys
    [get_available_keys] lists for the current language are exactly the
    keys [get_text_by_category] finds in the current language: for a
    listed key the lookup returns the stored text whatever the fallback
    flag and the iteration order, and for a key not listed the lookup
    without fallback returns the placeholder. *)
Theorem available_keys_are_the_keys_found
    (st : LanguageManager) (category key : string) :
  PyStr.lower category = category → category ≠ "" →
  (key ∈ get_available_keys st (Some category) None ↔
   ∃ v, get (category_data st (current_language st) category) key = Some v
        ∧ ∀ hash_order fallback,
            get_text_by_category hash_order st category key fallback = v)
  ∧ (key ∉ get_available_keys st (Some category) None →
     ∀ hash_order,
       get_text_by_category hash_order st category key false = missing key).
Proof.
  intros Hlow Hne.
  assert (PyStr.truthy category = true) as Htruthy by (by destruct category).
  unfold get_available_keys, get_text_by_category. rewrite Htruthy, Hlow.
  rewrite elem_of_list_to_set. fold (category_data st (current_language st) category).
  rewrite elem_of_keys_get. split.
  - split.
    + intros [v Hv]. exists v. split; [done|]. intros ho fb. by rewrite Hv.
    + intros (v & Hv & _). by exists v.
  - intros Hnot ho.
    destruct (get (category_data st (current_language st) category) key)
      as [v|] eqn:Hv; [|done].
    destruct Hnot. by exists v.
Qed.

Lemma available_keys_are_the_keys_found_witness :
  ("thanks" ∉ get_available_keys Sample.st_en (Some "messages") None)
  ∧ get_text_by_category Sample.vi_first Sample.st_en "messages" "thanks" false
    = "[Missing: thanks]".
Proof.
  destruct (available_keys_are_the_keys_found Sample.st_en "messages" "thanks")
    as [_ Hmissing]; [reflexivity|discriminate|].
  assert ("thanks" ∉ get_available_keys Sample.st_en (Some "messages") None)
    as Hnot.
  { apply (bool_decide_unpack _). vm_compute. reflexivity. }
  split; [exact Hnot|]. apply (Hmissing Hnot).
Defined.

Lemma wf_elem_get {V} (d : odict V) (k : string) (v : V) :
  wf d → (k, v) ∈ d → get d k = Some v.
Proof.
  unfold wf, keys. induction d as [|[k0 v0] d IH]; simpl.
  - intros _ []%elem_of_nil.
  - intros [Hnotin Hnd]%NoDup_cons [[= -> ->]|Hin]%elem_of_cons.
    + by rewrite decide_True.
    + rewrite decide_False; [by apply IH|].
      intros ->. apply Hnotin. apply list_elem_of_fmap. by exists (k, v).
Qed.

(** ** Reverse lookup and lookup together *)

(** X9: looking a text of the current language up in reverse and then
    forward again gives back the text up to case: for a key of a category
    (named in lower case) with text [v], [find_key_by_text(v, category)]
    finds a key, and [get_text_by_category] of that key is [v] up to case,
    though the key may be another one. *)
Theorem reverse_then_forward_lookup
    (hash_order : list string) (st : LanguageManager)
    (category key v : string) (fallback : bool) :
  PyStr.lower category = category → category ≠ "" →
  wf (category_data st (current_language st) category) →
  get (category_data st (current_language st) category) key = Some v →
  ∃ key',
    find_key_by_text st v (Some category) = Some key'
    ∧ PyStr.lower (get_text_by_category hash_order st category key' fallback)
      = PyStr.lower (get_text_by_category hash_order st category key fallback).
Proof.
  intros Hlow Hne Hwf Hget.
  assert (PyStr.truthy category = true) as Htruthy by (by destruct category).
  unfold find_key_by_text, categories_to_search. rewrite Htruthy.
  cbn [find_in_categories].
  fold (category_data st (current_language st) category).
  destruct (find_in_texts (category_data st (current_language st) category) v)
    as [key'|] eqn:Hfind.
  - exists key'. split; [done|].
    apply find_in_texts_Some in Hfind as (v' & Hin & Hv').
    unfold get_text_by_category. rewrite Hlow.
    by rewrite (wf_elem_get _ _ _ Hwf Hin), Hget.
  - exfalso. apply (proj1 (find_in_texts_None _ _) Hfind key v); [|done].
    by apply get_Some_elem.
Qed.

Lemma reverse_then_forward_lookup_witness :
  ∃ key',
    find_key_by_text Sample.st_en "WELCOME" (Some "messages") = Some key'
    ∧ PyStr.lower (get_text_by_category Sample.en_first Sample.st_en
                     "messages" key' true)
      = PyStr.lower (get_text_by_category Sample.en_first Sample.st_en
                       "messages" "greeting" true).
Proof.
  apply (reverse_then_forward_lookup Sample.en_first Sample.st_en "messages"
           "greeting" "WELCOME" true).
  - reflexivity.
  - discriminate.
  - apply (bool_decide_unpack _). vm_compute. reflexivity.
  - vm_compute. reflexivity.
Defined.

(** ** The completeness report and its use at the end of a run *)

Lemma validate_lookup (hash_order : list string) (st : LanguageManager)
    (reference_language lang : string) :
  validate_language_completeness hash_order st reference_language !! lang
  = if decide (lang ∈ hash_order
               ∧ lang ≠ _normalize_language_code reference_language)
    then Some (missing_keys_of
                 (default [] (language_data st
                              !! _normalize_language_code reference_language))
                 (default [] (language_data st !! lang)))
    else None.
Proof.
  unfold validate_language_completeness, get_supported_languages.
  rewrite (validation_result_lookup_acc
             (fun l => missing_keys_of
                         (default [] (language_data st
                                      !! _normalize_language_code reference_language))
                         (default [] (language_data st !! l)))).
  by rewrite lookup_empty.
Qed.

Lemma has_missing_translations_true
    (r : gmap string (gmap string (list string))) :
  Environment.has_missing_translations r = true ↔
  ∃ lang (mk : gmap string (list string)) cat ks,
    r !! lang = Some mk ∧ mk !! cat = Some ks ∧ ks ≠ [].
Proof.
  unfold Environment.has_missing_translations. rewrite existsb_exists. split.
  - intros ([lang mk] & Hin & Hex). apply existsb_exists in Hex
      as ([cat ks] & Hin' & Hks).
    apply list_elem_of_In, elem_of_map_to_list in Hin.
    apply list_elem_of_In, elem_of_map_to_list in Hin'.
    exists lang, mk, cat, ks. split; [done|]. split; [done|]. by destruct ks.
  - intros (lang & mk & cat & ks & Hr & Hmk & Hks).
    exists (lang, mk). split; [by apply list_elem_of_In, elem_of_map_to_list|].
    apply existsb_exists. exists (cat, ks).
    split; [by apply list_elem_of_In, elem_of_map_to_list|]. by destruct ks.
Qed.

(** X10: the end-of-run check of [after_all] on the result of
    [validate_language_completeness] reports missing translations exactly
    when some key of some category of the reference language is absent
    from the same category of another supported language. *)
Theorem has_missing_translations_iff_gap
    (hash_order : list string) (st : LanguageManager)
    (reference_language : string) :
  let reference_lang := _normalize_language_code reference_language in
  let reference_data := default [] (language_data st !! reference_lang) in
  wf reference_data →
  (Environment.has_missing_translations
     (validate_language_completeness hash_order st reference_language) = true
   ↔ ∃ lang cat (ref_texts : texts) key,
       lang ∈ hash_order ∧ lang ≠ reference_lang
       ∧ get reference_data cat = Some ref_texts
       ∧ key ∈ keys ref_texts
       ∧ get (category_data st lang cat) key = None).
Proof.
  intros reference_lang reference_data Hwf.
  rewrite has_missing_translations_true. split.
  - intros (lang & mk & cat & ks & Hr & Hmk & Hks).
    rewrite validate_lookup in Hr. fold reference_lang in Hr.
    fold reference_data in Hr.
    case_decide as Hlang; [|done]. destruct Hlang as [Hin Hne].
    injection Hr as <-. rewrite (missing_keys_of_lookup _ _ _ Hwf) in Hmk.
    destruct (get reference_data cat) as [ref_texts|] eqn:Href; [|done].
    destruct (missing_list ref_texts _) as [|k0 m0] eqn:Hm; [done|].
    assert (k0 ∈ missing_list ref_texts
                   (get_or_empty (default [] (language_data st !! lang)) cat))
      as Hk0 by (rewrite Hm; apply list_elem_of_here).
    apply list_elem_of_filter in Hk0 as [Hnone Hk0].
    by exists lang, cat, ref_texts, k0.
  - intros (lang & cat & ref_texts & key & Hin & Hne & Href & Hkey & Hnone).
    assert (key ∈ missing_list ref_texts
                    (get_or_empty (default [] (language_data st !! lang)) cat))
      as Hk by (by apply list_elem_of_filter).
    destruct (missing_list ref_texts
                (get_or_empty (default [] (language_data st !! lang)) cat))
      as [|k0 m0] eqn:Hm; [by apply elem_of_nil in Hk|].
    exists lang, (missing_keys_of reference_data
                    (default [] (language_data st !! lang))), cat, (k0 :: m0).
    split; [|split; [|done]].
    + rewrite validate_lookup. fold reference_lang. fold reference_data.
      by rewrite decide_True.
    + rewrite (missing_keys_of_lookup _ _ _ Hwf), Href. by rewrite Hm.
Qed.

Lemma has_missing_translations_iff_gap_witness :
  Environment.has_missing_translations
    (validate_language_completeness Sample.vi_first Sample.st_en "english")
  = true.
Proof.
  assert (wf (default [] (language_data Sample.st_en
                            !! _normalize_language_code "english"))) as Hwf.
  { destruct (language_data Sample.st_en !! _normalize_language_code "english")
      as [c|] eqn:Hc; [|apply NoDup_nil_2].
    apply (init_wf Sample.modules "en" _ _ Hc). }
  apply (has_missing_translations_iff_gap Sample.vi_first Sample.st_en
           "english" Hwf).
  exists "vi", "messages",
    [("welcome", "Welcome"); ("goodbye", "Goodbye"); ("greeting", "WELCOME")],
    "welcome".
  split; [apply list_elem_of_here|]. split; [vm_compute; discriminate|].
  split; [vm_compute; reflexivity|]. split; [apply list_elem_of_here|].
  vm_compute. reflexivity.
Defined.

(** X11: the completeness report does not depend on the order in which
    the supported languages are iterated, nor on how often a code is
    listed: two orders with the same members give the same mapping. *)
Theorem validate_language_completeness_order_free
    (order1 order2 : list string) (st : LanguageManager)
    (reference_language : string) :
  (∀ l, l ∈ order1 ↔ l ∈ order2) →
  validate_language_completeness order1 st reference_language
  = validate_language_completeness order2 st reference_language.
Proof.
  intros Hsame. apply map_eq. intros lang. rewrite !validate_lookup.
  destruct (decide (lang ∈ order1
                    ∧ lang ≠ _normalize_language_code reference_language))
    as [[H1 Hne]|Hno].
  - rewrite decide_True; [done|]. split; [by apply Hsame|done].
  - rewrite decide_False; [done|]. intros [H2 Hne]. apply Hno.
    split; [by apply Hsame|done].
Qed.

Lemma validate_language_completeness_order_free_witness :
  validate_language_completeness Sample.en_first Sample.st_en "en"
  = validate_language_completeness Sample.vi_first Sample.st_en "en".
Proof.
  apply (validate_language_completeness_order_free Sample.en_first
           Sample.vi_first Sample.st_en "en").
  intros l. unfold Sample.en_first, Sample.vi_first.
  rewrite !elem_of_cons, elem_of_nil. tauto.
Defined.

(** ** Bulk lookup again *)

(** X12: the mapping [bulk_get_texts] returns depends only on which keys
    are asked for, not on their order or on repetitions, and asking for
    the keys of two lists at once gives the union of the two results. *)
Theorem bulk_get_texts_set_of_keys
    (hash_order : list string) (st : LanguageManager)
    (keys1 keys2 : list string) (category : string) :
  ((∀ k, k ∈ keys1 ↔ k ∈ keys2) →
   bulk_get_texts hash_order st keys1 category
   = bulk_get_texts hash_order st keys2 category)
  ∧ bulk_get_texts hash_order st (keys1 ++ keys2) category
    = bulk_get_texts hash_order st keys1 category
      ∪ bulk_get_texts hash_order st keys2 category.
Proof.
  assert (∀ ks key,
            bulk_get_texts hash_order st ks category !! key
            = if decide (key ∈ ks)
              then Some (get_text_by_category hash_order st category key true)
              else None) as Hlookup.
  { intros ks key. unfold bulk_get_texts.
    rewrite (bulk_lookup_acc
               (fun k => get_text_by_category hash_order st category k true)).
    by rewrite lookup_empty. }
  split.
  - intros Hsame. apply map_eq. intros key. rewrite !Hlookup.
    destruct (decide (key ∈ keys1)) as [H1|H1].
    + rewrite decide_True; [done|]. by apply Hsame.
    + rewrite decide_False; [done|]. intros H2. by apply H1, Hsame.
  - apply map_eq. intros key. rewrite lookup_union, !Hlookup.
    destruct (decide (key ∈ keys1)) as [H1|H1],
             (decide (key ∈ keys2)) as [H2|H2]; simpl.
    + rewrite decide_True; [done|]. apply elem_of_app. by left.
    + rewrite decide_True; [done|]. apply elem_of_app. by left.
    + rewrite decide_True; [done|]. apply elem_of_app. by right.
    + rewrite decide_False; [done|]. intros [?|?]%elem_of_app; done.
Qed.

Lemma bulk_get_texts_set_of_keys_witness :
  bulk_get_texts Sample.en_first Sample.st_en ["nope"; "welcome"; "nope"]
    "messages"
  = bulk_get_texts Sample.en_first Sample.st_en ["welcome"; "nope"] "messages".
Proof.
  destruct (bulk_get_texts_set_of_keys Sample.en_first Sample.st_en
              ["nope"; "welcome"; "nope"] ["welcome"; "nope"] "messages")
    as [Hsame _].
  apply Hsame. intros k. rewrite !elem_of_cons, elem_of_nil. tauto.
Defined.

(** ** The environment's own language tables *)

Lemma normalize_of_lower (language a : string) :
  PyStr.lower language = a → PyStr.strip a = a → a ≠ "" →
  _normalize_language_code language = default "en" (get LANGUAGE_MAPPINGS a).
Proof.
  intros Hlow Hstrip Hne. unfold _normalize_language_code.
  destruct language as [|c s]; [by subst a|].
  cbn [PyStr.truthy negb]. by rewrite Hlow, Hstrip.
Qed.

Lemma language_code_mapping_cases (language code : string) :
  get Environment.language_code_mapping (PyStr.lower language) = Some code →
  _normalize_language_code language = code ∧ (code = "en" ∨ code = "vi").
Proof.
  unfold Environment.language_code_mapping. simpl.
  repeat case_decide; try done; intros [= <-];
    (split; [|auto]);
    match goal with
    | H : ?a = PyStr.lower language |- _ =>
        by rewrite (normalize_of_lower language a)
    end.
Qed.

(** X13: the code [before_all] and [after_scenario] compute from the
    configured language is always "en" or "vi" and is left as it is by the
    manager's normalisation, so it becomes the manager's current and
    default language; it is the code the manager itself would give the
    configured language whenever the environment's table knows that
    language, and when the two differ the environment says "en" where the
    manager would say "vi". *)
Theorem language_code_agrees_with_manager
    (import_module : string → import_result) (userdata : option string)
    (language : string) :
  (Environment.language_code language = "en"
   ∨ Environment.language_code language = "vi")
  ∧ _normalize_language_code (Environment.language_code language)
    = Environment.language_code language
  ∧ (get Environment.language_code_mapping (PyStr.lower language) ≠ None →
     Environment.language_code language = _normalize_language_code language)
  ∧ (Environment.language_code language ≠ _normalize_language_code language →
     Environment.language_code language = "en"
     ∧ _normalize_language_code language = "vi")
  ∧ current_language (Environment.before_all_manager import_module userdata)
    = Environment.language_code (Environment.configured_language userdata)
  ∧ default_language (Environment.before_all_manager import_module userdata)
    = Environment.language_code (Environment.configured_language userdata).
Proof.
  assert (∀ l, Environment.language_code l = "en"
               ∨ Environment.language_code l = "vi") as Hcode.
  { intros l. unfold Environment.language_code.
    destruct (get _ (PyStr.lower l)) as [code|] eqn:H; [|by left].
    by destruct (language_code_mapping_cases _ _ H) as [_ [-> | ->]]; auto. }
  assert (∀ l, _normalize_language_code (Environment.language_code l)
               = Environment.language_code l) as Hfix.
  { intros l. by destruct (Hcode l) as [-> | ->]. }
  split; [apply Hcode|]. split; [apply Hfix|]. split; [|split; [|split]].
  - unfold Environment.language_code.
    destruct (get _ (PyStr.lower language)) as [code|] eqn:H; [|done].
    intros _. by destruct (language_code_mapping_cases _ _ H) as [-> _].
  - unfold Environment.language_code.
    destruct (get _ (PyStr.lower language)) as [code|] eqn:H.
    + by destruct (language_code_mapping_cases _ _ H) as [-> _].
    + simpl. intros Hne. split; [done|].
      by destruct (normalize_in_supported language) as [Hn|Hn].
  - unfold Environment.before_all_manager.
    destruct (init_normalized import_module
                (Environment.language_code
                   (Environment.configured_language userdata))) as [_ ->].
    apply Hfix.
  - unfold Environment.before_all_manager. rewrite init_default. apply Hfix.
Qed.

Lemma language_code_agrees_with_manager_witness :
  Environment.language_code "VN" = "en" ∧ _normalize_language_code "VN" = "vi".
Proof.
  destruct (language_code_agrees_with_manager Sample.modules None "VN")
    as (_ & _ & _ & Hdiffer & _).
  apply Hdiffer. vm_compute. discriminate.
Defined.

Lemma locator_language_mapping_cases (code name : string) :
  get Environment.locator_language_mapping (PyStr.lower code) = Some name →
  get module_map (_normalize_language_code code) = Some name.
Proof.
  remember (get module_map (_normalize_language_code code)) as g eqn:Hg.
  unfold Environment.locator_language_mapping. simpl.
  repeat case_decide; try done; intros [= <-]; subst g;
    match goal with
    | H : ?a = PyStr.lower code |- _ =>
        by rewrite (normalize_of_lower code a)
    end.
Qed.

(** X14: in [switch_language_for_test] the language handed to the locator
    loader is the module name of the language the manager switches to
    whenever the helper's table knows the given code; for every code, a
    locator language "vietnamese" means the manager is at "vi", and a
    manager at "en" means the locator language is "english". *)
Theorem switch_language_for_test_consistent
    (import_module : string → import_result) (st : LanguageManager)
    (language_code : string) :
  let st' := set_language import_module st language_code in
  (get Environment.locator_language_mapping (PyStr.lower language_code) ≠ None →
   get module_map (current_language st')
   = Some (Environment.locator_language language_code))
  ∧ (Environment.locator_language language_code = "vietnamese" →
     current_language st' = "vi")
  ∧ (current_language st' = "en" →
     Environment.locator_language language_code = "english").
Proof.
  intros st'. unfold st'. rewrite set_language_current.
  unfold Environment.locator_language.
  destruct (get Environment.locator_language_mapping (PyStr.lower language_code))
    as [name|] eqn:H.
  - pose proof (locator_language_mapping_cases _ _ H) as Hmod. simpl.
    split; [done|]. split.
    + intros ->. revert Hmod.
      by destruct (normalize_in_supported language_code) as [-> | ->].
    + intros Hen. rewrite Hen in Hmod. by injection Hmod as <-.
  - simpl. split; [done|]. split; [discriminate|done].
Qed.

Lemma switch_language_for_test_consistent_witness :
  get module_map (current_language (set_language Sample.modules Sample.st_en
                                      "Vietnamese"))
  = Some (Environment.locator_language "Vietnamese").
Proof.
  destruct (switch_language_for_test_consistent Sample.modules Sample.st_en
              "Vietnamese") as (Hknown & _).
  apply Hknown. vm_compute. discriminate.
Defined.

(** ** Scenario hooks *)

Lemma replace_go_skip (pat rep p x : string) :
  PyText.replace_go pat rep (String.length p) (p +:+ x)
  = PyText.replace_go pat rep 0 x.
Proof. induction p as [|a p IH]; [reflexivity|]. exact IH. Qed.

Lemma startswith_app (p x : string) : PyText.startswith (p +:+ x) p = true.
Proof.
  induction p as [|a p IH]; [reflexivity|].
  change (String a p +:+ x) with (String a (p +:+ x)).
  cbn [PyText.startswith]. by rewrite bool_decide_eq_true_2, IH.
Qed.

(** A string that matches the pattern at its head: the match is replaced
    and the scan goes on behind it. *)
Lemma replace_prefix (pat rep x : string) :
  pat ≠ "" →
  PyText.replace (pat +:+ x) pat rep = rep +:+ PyText.replace x pat rep.
Proof.
  intros Hne. unfold PyText.replace. destruct pat as [|a p]; [done|].
  change (String a p +:+ x) with (String a (p +:+ x)).
  cbn [PyText.replace_go].
  change (String a (p +:+ x)) with (String a p +:+ x).
  rewrite startswith_app.
  replace (String.length (String a p) - 1) with (String.length p)
    by (simpl; lia).
  by rewrite replace_go_skip.
Qed.

Lemma startswith_language_has_dot (s : string) :
  PyText.startswith s "language." = true → PyText.contains_char s "." = true.
Proof.
  intros H.
  repeat (destruct s as [|? s]; [discriminate H|];
          simpl in H; apply andb_prop in H as [Hc H];
          apply bool_decide_eq_true in Hc; subst).
  cbn [PyText.contains_char].
  repeat (rewrite bool_decide_eq_false_2 by discriminate; cbn [orb]).
  by rewrite bool_decide_eq_true_2.
Qed.

Lemma replace_language_no_dot (x : string) :
  PyText.contains_char x "." = false → PyText.replace x "language." "" = x.
Proof.
  unfold PyText.replace. induction x as [|c x IH]; [done|].
  intros Hdot. cbn [PyText.replace_go].
  destruct (PyText.startswith (String c x) "language.") eqn:Hs.
  - apply startswith_language_has_dot in Hs. congruence.
  - f_equal. apply IH. simpl in Hdot. by apply orb_false_elim in Hdot as [_ ?].
Qed.

(** X15: [before_scenario] takes the scenario's language from the first
    tag that starts with "language." and ignores every later one; the
    language is the tag with each "language." taken out, so for a tag
    "language." + x with no dot in x it is x; without such a tag the
    manager is left alone. *)
Theorem scenario_language_first_tag
    (import_module : string → import_result) (st : LanguageManager)
    (tags : list string) :
  (∀ pre x post,
     tags = pre ++ ("language." +:+ x) :: post →
     (∀ t, t ∈ pre → PyText.startswith t "language." = false) →
     Environment.scenario_language tags
     = Some (PyText.replace x "language." "")
     ∧ (PyText.contains_char x "." = false →
        current_language (Environment.before_scenario_manager import_module st tags)
        = _normalize_language_code x))
  ∧ ((∀ t, t ∈ tags → PyText.startswith t "language." = false) →
     Environment.before_scenario_manager import_module st tags = st).
Proof.
  split.
  - intros pre x post -> Hpre.
    assert (Environment.scenario_language (pre ++ ("language." +:+ x) :: post)
            = Some (PyText.replace x "language." "")) as Hsel.
    { induction pre as [|t pre IH]; cbn [app Environment.scenario_language].
      - rewrite startswith_app. by rewrite replace_prefix.
      - rewrite (Hpre t (list_elem_of_here _ _)). apply IH.
        intros t' Ht'. apply Hpre. by apply list_elem_of_further. }
    split; [exact Hsel|]. intros Hdot.
    unfold Environment.before_scenario_manager. rewrite Hsel.
    by rewrite set_language_current, replace_language_no_dot.
  - intros Hnone. unfold Environment.before_scenario_manager.
    assert (Environment.scenario_language tags = None) as ->; [|done].
    induction tags as [|t tags IH]; [done|]. cbn [Environment.scenario_language].
    rewrite (Hnone t (list_elem_of_here _ _)). apply IH.
    intros t' Ht'. apply Hnone. by apply list_elem_of_further.
Qed.

Lemma scenario_language_first_tag_witness :
  current_language
    (Environment.before_scenario_manager Sample.modules Sample.st_en
       ["fixture.chrome"; "language.Vietnamese"; "language.en"])
  = _normalize_language_code "Vietnamese".
Proof.
  destruct (scenario_language_first_tag Sample.modules Sample.st_en
              ["fixture.chrome"; "language.Vietnamese"; "language.en"])
    as [Hfirst _].
  destruct (Hfirst ["fixture.chrome"] "Vietnamese" ["language.en"])
    as [_ Hcur].
  - reflexivity.
  - intros t [->|[]%elem_of_nil]%elem_of_cons. reflexivity.
  - apply Hcur. reflexivity.
Defined.

(** X16: whatever tags a scenario has, after [before_scenario] and
    [after_scenario] the manager's current language is the one
    [before_all] gave it from the run configuration, its default language
    is untouched, and on a manager with all supported languages loaded the
    catalog is untouched too. *)
Theorem scenario_hooks_restore_run_language
    (import_module : string → import_result) (userdata : option string)
    (st : LanguageManager) (tags : list string) :
  let st' := Environment.after_scenario_manager import_module userdata
               (Environment.before_scenario_manager import_module st tags) in
  current_language st'
  = current_language (Environment.before_all_manager import_module userdata)
  ∧ default_language st' = default_language st
  ∧ (all_loaded st → language_data st' = language_data st).
Proof.
  intros st'. unfold st', Environment.after_scenario_manager,
    Environment.before_scenario_manager, Environment.before_all_manager.
  split; [|split].
  - rewrite set_language_current.
    by destruct (init_normalized import_module
                   (Environment.language_code
                      (Environment.configured_language userdata))) as [_ ->].
  - rewrite set_language_default.
    destruct (Environment.scenario_language tags); [|done].
    apply set_language_default.
  - intros Hloaded.
    destruct (Environment.scenario_language tags) as [l|].
    + rewrite (set_language_loaded import_module st l Hloaded).
      rewrite set_language_loaded; [done|]. exact Hloaded.
    + by rewrite (set_language_loaded import_module st _ Hloaded).
Qed.

Lemma scenario_hooks_restore_run_language_witness :
  language_data
    (Environment.after_scenario_manager Sample.modules (Some "Vietnamese")
       (Environment.before_scenario_manager Sample.modules Sample.st_vi
          ["language.en"]))
  = language_data Sample.st_vi.
Proof.
  destruct (scenario_hooks_restore_run_language Sample.modules
              (Some "Vietnamese") Sample.st_vi ["language.en"])
    as (_ & _ & Hdata).
  apply Hdata. apply (init_all_loaded Sample.modules "Vietnamese").
Defined.

(** ** Navigation steps *)

(** X17: the endpoint [step_navigate_to_page] computes is, for every page
    name, a slash followed by the name in lower case: every entry of
    [page_url_map] equals what the default would give. *)
Theorem endpoint_is_slash_lower (page_name : string) :
  Navigation.endpoint page_name = "/" +:+ PyStr.lower page_name.
Proof.
  unfold Navigation.endpoint, Navigation.page_url_map.
  generalize (PyStr.lower page_name). intros s. simpl.
  repeat case_decide; subst; reflexivity.
Qed.

Lemma contains_char_app (s t : string) (c : ascii) :
  PyText.contains_char (s +:+ t) c
  = PyText.contains_char s c || PyText.contains_char t c.
Proof.
  induction s as [|a s IH]; [done|].
  change (String a s +:+ t) with (String a (s +:+ t)). simpl.
  by rewrite IH, orb_assoc.
Qed.

(** Replacing a one-character pattern leaves no such character, when the
    replacement has none. *)
Lemma replace_char_gone (s rep : string) (c : ascii) :
  PyText.contains_char rep c = false →
  PyText.contains_char (PyText.replace s (String c "") rep) c = false.
Proof.
  intros Hrep. unfold PyText.replace. induction s as [|a s IH]; [done|].
  cbn [PyText.replace_go PyText.startswith].
  change (String.length (String c "") - 1) with 0.
  rewrite andb_true_r. case_bool_decide as Hc.
  - rewrite contains_char_app, Hrep. exact IH.
  - cbn [PyText.contains_char]. rewrite bool_decide_eq_false_2 by congruence.
    exact IH.
Qed.

(** X18: the expected breadcrumb [step_verify_breadcrumb] compares with
    never contains the separator ">", whatever path the step is given, and
    a path without ">" is compared as it is. *)
Theorem normalized_expected_has_no_separator (breadcrumb_path : string) :
  PyText.contains_char (Navigation.normalized_expected breadcrumb_path) ">"
  = false
  ∧ (PyText.contains_char breadcrumb_path ">" = false →
     Navigation.normalized_expected breadcrumb_path = breadcrumb_path).
Proof.
  split; [by apply replace_char_gone|].
  intros Hno. unfold Navigation.normalized_expected.
  assert (∀ pat rep s, PyText.contains_char pat ">" = true →
            PyText.contains_char s ">" = false →
            PyText.replace s pat rep = s) as Hid.
  { intros pat rep s Hpat. unfold PyText.replace.
    induction s as [|a s IH]; [done|]. intros Hs.
    cbn [PyText.replace_go].
    destruct (PyText.startswith (String a s) pat) eqn:Hstart.
    - exfalso. revert Hpat Hs Hstart. generalize (String a s). clear.
      intros s. revert s. induction pat as [|p pat IH]; intros s; [done|].
      destruct s as [|b s]; [done|]. simpl.
      intros Hpat Hs [Hpb Hrest]%andb_prop.
      apply bool_decide_eq_true in Hpb as ->.
      apply orb_false_elim in Hs as [Hb Hs]. rewrite Hb in Hpat. simpl in Hpat.
      by apply (IH s).
    - f_equal. apply IH. simpl in Hs. by apply orb_false_elim in Hs as [_ ?]. }
  rewrite (Hid " > " " " breadcrumb_path) by done.
  by apply Hid.
Qed.

Lemma normalized_expected_has_no_separator_witness :
  Navigation.normalized_expected "Home Products" = "Home Products".
Proof.
  destruct (normalized_expected_has_no_separator "Home Products") as [_ Hid].
  apply Hid. reflexivity.
Defined.

(** ** The category accessors *)

Lemma get_text_by_category_frame
    (hash_order : list string) (st1 st2 : LanguageManager)
    (category key : string) (fallback : bool) :
  current_language st1 = current_language st2 →
  (∀ lang, category_data st1 lang (PyStr.lower category)
           = category_data st2 lang (PyStr.lower category)) →
  get_text_by_category hash_order st1 category key fallback
  = get_text_by_category hash_order st2 category key fallback.
Proof.
  intros Hcur Hdata. unfold get_text_by_category, get_supported_languages.
  assert (∀ langs, fallback_scan st1 category key langs
                   = fallback_scan st2 category key langs) as Hscan.
  { induction langs as [|l langs IH]; simpl; [done|].
    by rewrite Hcur, Hdata, IH. }
  by rewrite Hcur, Hdata, Hscan.
Qed.

(** X19: each of the four accessors reads its own category only: two
    managers with the same current language whose data agree on that
    category, in every language, give the same text, whatever their other
    categories hold. *)
Theorem accessors_read_their_category
    (hash_order : list string) (st1 st2 : LanguageManager)
    (key : string) (fallback : bool) :
  current_language st1 = current_language st2 →
  ((∀ lang, category_data st1 lang "messages"
            = category_data st2 lang "messages") →
   get_message hash_order st1 key fallback
   = get_message hash_order st2 key fallback)
  ∧ ((∀ lang, category_data st1 lang "button_texts"
              = category_data st2 lang "button_texts") →
     get_button_text hash_order st1 key fallback
     = get_button_text hash_order st2 key fallback)
  ∧ ((∀ lang, category_data st1 lang "labels"
              = category_data st2 lang "labels") →
     get_label_text hash_order st1 key fallback
     = get_label_text hash_order st2 key fallback)
  ∧ ((∀ lang, category_data st1 lang "validation_messages"
              = category_data st2 lang "validation_messages") →
     get_validation_message hash_order st1 key fallback
     = get_validation_message hash_order st2 key fallback).
Proof.
  intros Hcur.
  repeat split; intros Hdata; by apply get_text_by_category_frame.
Qed.

Lemma accessors_read_their_category_witness :
  get_message Sample.en_first
    (with_data Sample.st_en "en"
       [("messages", [("welcome", "Welcome"); ("goodbye", "Goodbye");
                      ("greeting", "WELCOME")]);
        ("labels", [("goodbye", "Bye")])])
    "goodbye" true
  = get_message Sample.en_first Sample.st_en "goodbye" true.
Proof.
  destruct (accessors_read_their_category Sample.en_first
              (with_data Sample.st_en "en"
                 [("messages", [("welcome", "Welcome"); ("goodbye", "Goodbye");
                                ("greeting", "WELCOME")]);
                  ("labels", [("goodbye", "Bye")])])
              Sample.st_en "goodbye" true) as (Hmsg & _); [reflexivity|].
  apply Hmsg. intros lang. unfold category_data.
  cbn [with_data language_data].
  destruct (decide (lang = "en")) as [->|Hne].
  - vm_compute. reflexivity.
  - by rewrite lookup_insert_ne.
Defined.
